(** * reaxbackend: the HTTP edge service of [server.js]

    A shallow embedding of [server.js] (an Express 4 application) and the
    properties of its CORS policy, route handlers, routing chain and
    shutdown procedure.

    - [process.env] is a finite map from variable names to strings.
    - A JS value that is either a string or [undefined] is an
      [option string]; truthiness and [||] are written out.
    - [console.log] / [console.error] append to an explicit log.
    - [new Date().toISOString()] and [process.uptime()] are readings of the
      world the handler runs in, one reading for each request.
    - What the libraries decide from data the program never looks at (a
      request body that does not parse, a path that cannot be URI-decoded,
      conditional and range headers, the files of the [build] directory) is
      part of the request or of the world.
    - A layer answers with the status and the body it hands to Express;
      [delivered] is what Express then sends (304 to a fresh conditional
      request, no body to a HEAD request).
    - The Express routing chain is a list of layers run in registration
      order; the event loop of the shutdown procedure is a step function on
      a process state. *)

From Stdlib Require Import ZArith NArith QArith.QArith_base Ascii Lia.
From stdpp Require Import base strings list gmap.

Local Open Scope string_scope.

(** ** JavaScript values used by the program *)

Module Js.

(** [Boolean(v)] for a value that is a string or [undefined]:
    [undefined] and the empty string are falsy. *)
Definition truthy (v : option string) : bool :=
  match v with
  | None => false
  | Some s => negb (String.eqb s "")
  end.

(** [v || d] where [v] is a string or [undefined] and [d] a string. *)
Definition or_else (v : option string) (d : string) : string :=
  match v with
  | Some s => if String.eqb s "" then d else s
  | None => d
  end.

(** [n || d] where [n] is a number or [undefined]: [0] is falsy. *)
Definition num_or_else (n : option Z) (d : Z) : Z :=
  match n with
  | Some z => if Z.eqb z 0 then d else z
  | None => d
  end.

(** [arr.filter(Boolean)] on an array of strings and [undefined]s. *)
Fixpoint filter_Boolean (arr : list (option string)) : list string :=
  match arr with
  | [] => []
  | Some s :: rest =>
      if truthy (Some s) then s :: filter_Boolean rest else filter_Boolean rest
  | None :: rest => filter_Boolean rest
  end.

(** [arr.indexOf(x)]: the first index holding [x], [-1] when there is
    none. *)
Fixpoint indexOf_from (i : Z) (arr : list string) (x : string) : Z :=
  match arr with
  | [] => (-1)%Z
  | y :: rest => if String.eqb y x then i else indexOf_from (i + 1)%Z rest x
  end.

Definition indexOf (arr : list string) (x : string) : Z := indexOf_from 0%Z arr x.

(** JSON values, objects keeping the order of their keys. *)
#[warnings="-register-all"] Inductive json : Type :=
| JBool (b : bool)
| JNum (q : Q)
| JStr (s : string)
| JArr (items : list json)
| JObj (fields : list (string * json)).

Fixpoint assoc (k : string) (fields : list (string * json)) : option json :=
  match fields with
  | [] => None
  | (k', v) :: rest => if String.eqb k' k then Some v else assoc k rest
  end.

(** [body[k]] for a JSON object. *)
Definition field (k : string) (j : json) : option json :=
  match j with
  | JObj fields => assoc k fields
  | _ => None
  end.

(** The statuses the errors of this application carry: the body parsers and
    [send] build their errors with http-errors, which only makes 4xx and 5xx
    errors, and the router gives its decoding error the status 400. *)
Definition isErrorStatus (s : Z) : bool := (400 <=? s)%Z && (s <=? 599)%Z.

Record error_status : Type := mkErrorStatus {
  status_code : Z;
  status_in_range : isErrorStatus status_code = true
}.

Definition status400 : error_status := mkErrorStatus 400 eq_refl.
Definition status404 : error_status := mkErrorStatus 404 eq_refl.
Definition status412 : error_status := mkErrorStatus 412 eq_refl.
Definition status416 : error_status := mkErrorStatus 416 eq_refl.
Definition status503 : error_status := mkErrorStatus 503 eq_refl.

(** An [Error] object: its name, message and stack, and the optional
    [status] that HTTP middleware attaches. *)
Record Error : Type := mkError {
  name : string;
  message : string;
  stack : string;
  status : option error_status
}.

(** [err.status] as the number it is, [undefined] as [None]. *)
Definition statusNumber (err : Error) : option Z :=
  option_map status_code (status err).

(** The errors http-errors makes, [createError(412)] and the like. *)
Definition httpError (s : error_status) (nm msg : string) : Error :=
  {| name := nm; message := msg; stack := nm ++ ": " ++ msg; status := Some s |}.

(** [new Error(msg)]: no [status]; the stack starts with the header line
    (the frames that follow it are not modelled). *)
Definition new_Error (msg : string) : Error :=
  {| name := "Error"; message := msg; stack := "Error: " ++ msg;
     status := None |}.

(** The arguments of one [console.log] / [console.error] call. *)
Inductive log_arg : Type :=
| LStr (s : string)
| LErr (e : Error).

Inductive log_line : Type :=
| Log (args : list log_arg)
| LogError (args : list log_arg).

End Js.

Import Js.

(** ** Configuration read at start-up *)

Definition DEFAULT_PHONE : string := "855-550-2644".

(** The array literal of [allowedOrigins], before [.filter(Boolean)]. *)
Definition originEntries (env : gmap string string) : list (option string) :=
  [ Some "http://localhost:3000";
    Some "http://localhost:5000";
    env !! "FRONTEND_URL";
    Some "https://reaxapp.vercel.app/" ].

Definition allowedOrigins (env : gmap string string) : list string :=
  filter_Boolean (originEntries env).

(** The allowed-origin set in the words of the specification: the two
    local-development origins, the environment-configured origin if present,
    the production origin; a set has no duplicates, and the empty entry is
    taken out. *)
Definition specAllowedOrigins (env : gmap string string) : gset string :=
  ({[ "http://localhost:3000"; "http://localhost:5000" ]}
   ∪ match env !! "FRONTEND_URL" with Some u => {[ u ]} | None => ∅ end
   ∪ {[ "https://reaxapp.vercel.app/" ]}) ∖ {[ "" ]}.

(** [process.env.NODE_ENV === 'development'] *)
Definition isDevelopment (env : gmap string string) : bool :=
  match env !! "NODE_ENV" with
  | Some v => String.eqb v "development"
  | None => false
  end.

(** ** The CORS policy evaluator, [corsOptions.origin] *)

(** What the evaluator passes to its callback. *)
Inductive verdict : Type :=
| Allow                 (* callback(null, true) *)
| Reject (e : Error).   (* callback(err) *)

(** [corsOptions.origin(origin, callback)]: the verdict and the lines it
    logs. [origin] is [req.headers.origin]. *)
Definition corsOrigin (env : gmap string string) (origin : option string)
  : verdict * list log_line :=
  match origin with
  | None => (Allow, [])
  | Some o =>
      if negb (truthy (Some o)) then (Allow, [])
      else if negb (Z.eqb (indexOf (allowedOrigins env) o) (-1)) then (Allow, [])
      else if isDevelopment env then (Allow, [])
      else (Reject (new_Error "Not allowed by CORS"),
            [Log [LStr "Blocked origin:"; LStr o]])
  end.

(** ** Requests, responses and the world a handler runs in *)

(** What reading a file of the [build] directory gives. *)
Inductive file_read : Type :=
| FileOk (content : string)
| FileErr (e : Error).

(** What [express.static] finds for a request path: a file it serves, no
    file (it calls [next()]), or a fault it forwards with [next(err)]. *)
Inductive static_lookup : Type :=
| StaticHit (content : string)
| StaticMiss
| StaticFault (e : Error).

Record World : Type := mkWorld {
  env : gmap string string;          (* process.env *)
  now : string;                      (* new Date().toISOString() *)
  uptime : Q;                        (* process.uptime() *)
  build : string -> static_lookup;   (* the build directory, by request path *)
  index_html : file_read             (* build/index.html, as sendFile reads it *)
}.

(** What the conditional and range headers of a request (If-None-Match,
    If-Modified-Since, If-Match, If-Unmodified-Since, Range) come to for the
    response at hand, as Express ([fresh]) and [send] decide it, in the order
    [send] checks them. *)
Inductive conditional : Type :=
| Unconditional          (* no such header, or none that applies *)
| PreconditionFails      (* If-Match or If-Unmodified-Since that the file fails *)
| CacheFresh             (* the copy of the client is fresh, as with If-None-Match: * *)
| RangeUnsatisfiable     (* a Range that lies outside the file *)
| RangeWithin (first last : nat).  (* one byte range inside the file *)

Record Request : Type := mkRequest {
  method : string;                   (* req.method, upper case *)
  path : string;                     (* req.path *)
  origin : option string;            (* req.headers.origin *)
  validators : conditional;          (* the conditional and range headers *)
  path_fault : option Error;         (* what decoding the path raises, if anything *)
  body_fault : option Error          (* what the body parsers raise, if anything *)
}.

(** A request with a well-formed path, no origin header, no conditional or
    range header and no body. *)
Definition plainRequest (m p : string) : Request :=
  {| method := m; path := p; origin := None; validators := Unconditional;
     path_fault := None; body_fault := None |}.

Inductive body : Type :=
| BJson (j : json)       (* res.json(j) *)
| BText (s : string)     (* res.send(s) *)
| BFile (content : string)  (* res.sendFile / static *)
| BEmpty.                (* res.end() *)

(** The response a layer makes: the status it sets and the body it hands to
    [res.json], [res.send] or [send]. What Express puts on the wire for it
    is [delivered], below. *)
Record Response : Type := mkResponse {
  code : Z;                (* the status given to res.status, 200 by default *)
  payload : body
}.

(** [res.json(j)] with the default status. *)
Definition res_json (j : json) : Response := {| code := 200; payload := BJson j |}.

(** [body[k]] of a response that carries JSON. *)
Definition bodyField (k : string) (r : Response) : option json :=
  match payload r with
  | BJson j => field k j
  | _ => None
  end.

(** A world with the given environment: an empty [build] directory next to
    a readable entry document. *)
Definition worldWith (e : gmap string string) : World :=
  {| env := e; now := "2026-01-01T00:00:00.000Z"; uptime := 0%Q;
     build := fun _ => StaticMiss; index_html := FileOk "<!doctype html>" |}.

(** The same with an entry document that cannot be read. *)
Definition worldWithoutEntry (e : gmap string string) : World :=
  {| env := e; now := "2026-01-01T00:00:00.000Z"; uptime := 0%Q;
     build := fun _ => StaticMiss;
     index_html := FileErr (mkError "Error" "ENOENT: no such file or directory"
                              "Error: ENOENT: no such file or directory"
                              (Some status404)) |}.

Definition productionEnv : gmap string string := {[ "NODE_ENV" := "production" ]}.
Definition developmentEnv : gmap string string := {[ "NODE_ENV" := "development" ]}.

(** ** Route handlers *)

Definition environmentName (w : World) : string :=
  or_else (env w !! "NODE_ENV") "development".

(** [app.get('/')] *)
Definition rootHandler (w : World) (req : Request) : Response * list log_line :=
  (res_json (JObj [
     ("status", JStr "OK");
     ("message", JStr "Backend server is running successfully");
     ("timestamp", JStr (now w));
     ("environment", JStr (environmentName w));
     ("endpoints", JObj [
        ("health", JStr "/health");
        ("phoneNumber", JStr "/okok");
        ("config", JStr "/api/config") ]) ]), []).

(** [app.get('/health')] *)
Definition healthHandler (w : World) (req : Request) : Response * list log_line :=
  (res_json (JObj [
     ("status", JStr "OK");
     ("message", JStr "Server is healthy and running");
     ("timestamp", JStr (now w));
     ("uptime", JNum (uptime w));
     ("environment", JStr (environmentName w)) ]), []).

(** [app.get('/okok')] *)
Definition okokHandler (w : World) (req : Request) : Response * list log_line :=
  let line := Log [LStr "📞 Phone number requested from:";
                   LStr (or_else (origin req) "unknown")] in
  let phoneNumber := or_else (env w !! "PHONE_NUMBER") DEFAULT_PHONE in
  (res_json (JObj [
     ("tfn", JStr phoneNumber);
     ("timestamp", JStr (now w)) ]), [line]).

(** [app.get('/api/config')] *)
Definition configHandler (w : World) (req : Request) : Response * list log_line :=
  (res_json (JObj [
     ("enableFullscreenLock", JBool true);
     ("blockEscapeKey", JBool true);
     ("blockF11Key", JBool true);
     ("blockAllKeyboardShortcuts", JBool true);
     ("reEnterFullscreenOnExit", JBool true);
     ("phoneNumber", JStr (or_else (env w !! "PHONE_NUMBER") DEFAULT_PHONE));
     ("timestamp", JStr (now w)) ]), []).

(** [app.get('/api/test')] *)
Definition testHandler (w : World) (req : Request) : Response * list log_line :=
  (res_json (JObj [
     ("success", JBool true);
     ("message", JStr "Backend is accessible");
     ("receivedFrom", JStr (or_else (origin req) "unknown"));
     ("timestamp", JStr (now w)) ]), []).

(** What [res.sendFile] does with the entry document for a request: it
    fails when the file cannot be read, when a precondition of the request
    fails (412) or when its range cannot be satisfied (416); it answers 304
    to a fresh conditional request, 206 with the bytes of a range, and 200
    with the whole file otherwise. A failure is reported to the callback
    before anything of the response is written. *)
Inductive sent : Type :=
| SendFails (err : Error)
| SendDone (r : Response).

Definition sendFile (file : file_read) (req : Request) : sent :=
  match file with
  | FileErr err => SendFails err
  | FileOk content =>
      match validators req with
      | Unconditional => SendDone {| code := 200; payload := BFile content |}
      | PreconditionFails =>
          SendFails (httpError status412 "PreconditionFailedError"
                       "Precondition Failed")
      | CacheFresh => SendDone {| code := 304; payload := BEmpty |}
      | RangeUnsatisfiable =>
          SendFails (httpError status416 "RangeNotSatisfiableError"
                       "Range Not Satisfiable")
      | RangeWithin first last =>
          SendDone {| code := 206;
                      payload := BFile (String.substring first (last - first + 1)
                                          content) |}
      end
  end.

(** [app.get("*")]: the SPA fallback. When [res.sendFile] fails, the
    callback logs the error and answers 500. *)
Definition spaFallback (w : World) (req : Request) : Response * list log_line :=
  match sendFile (index_html w) req with
  | SendDone r => (r, [])
  | SendFails err =>
      ({| code := 500; payload := BText "Server Error" |},
       [LogError [LStr "Error sending index.html:"; LErr err]])
  end.

Definition availableEndpoints : list string :=
  ["/"; "/health"; "/okok"; "/api/config"; "/api/test"].

(** The 404 handler. *)
Definition notFoundHandler (w : World) (req : Request) : Response * list log_line :=
  ({| code := 404;
      payload := BJson (JObj [
        ("error", JStr "Not Found");
        ("message", JStr ("Cannot " ++ method req ++ " " ++ path req));
        ("availableEndpoints", JArr (map JStr availableEndpoints)) ]) |},
   [Log [LStr "❌ 404 Not Found:"; LStr (method req); LStr (path req)]]).

(** The global error handler. *)
Definition errorHandler (w : World) (err : Error) (req : Request)
  : Response * list log_line :=
  ({| code := num_or_else (statusNumber err) 500;
      payload := BJson (JObj [
        ("error", JStr "Internal Server Error");
        ("message", JStr (if isDevelopment (env w) then message err
                          else "Something went wrong"));
        ("timestamp", JStr (now w)) ]) |},
   [LogError [LStr "❌ Server Error:"; LStr (message err)];
    LogError [LStr (stack err)]]).

(** ** The routing chain *)

(** Express 4 compiles a route path to a case-insensitive regular
    expression with an optional trailing slash: ['/health'] becomes
    [/^\/health\/?$/i], ['/'] becomes [/^\/?$/i], and ['*'] matches every
    path. *)
Definition lower_ascii (c : ascii) : ascii :=
  let n := nat_of_ascii c in
  if (65 <=? n)%nat && (n <=? 90)%nat then ascii_of_nat (n + 32) else c.

Fixpoint toLowerCase (s : string) : string :=
  match s with
  | EmptyString => EmptyString
  | String c rest => String (lower_ascii c) (toLowerCase rest)
  end.

Definition routeMatches (pattern p : string) : bool :=
  let q := toLowerCase p in
  if String.eqb pattern "*" then true
  else if String.eqb pattern "/" then String.eqb q "" || String.eqb q "/"
  else String.eqb q (toLowerCase pattern)
       || String.eqb q (toLowerCase pattern ++ "/").

(** Express URI-decodes what a capture group of the route matched, before it
    looks at the method, and passes the error on when the value cannot be
    decoded; of the registered paths only ['*'] captures anything. *)
Definition routeDecodes (pattern : string) (req : Request) : option Error :=
  if String.eqb pattern "*" then path_fault req else None.

(** [app.get] routes also answer HEAD requests; [express.static] serves GET
    and HEAD only. *)
Definition isGetOrHead (m : string) : bool :=
  String.eqb m "GET" || String.eqb m "HEAD".

(** The layers of the application, named after what [server.js] registers. *)
Inductive layer : Type :=
| LCors            (* app.use(cors(corsOptions)) *)
| LBodyParsers     (* app.use(express.json()); app.use(express.urlencoded(..)) *)
| LLogger          (* the logging middleware *)
| LRoot            (* app.get('/') *)
| LHealth          (* app.get('/health') *)
| LOkok            (* app.get('/okok') *)
| LConfig          (* app.get('/api/config') *)
| LTest            (* app.get('/api/test') *)
| LStatic          (* app.use(express.static(build)) *)
| LSpa             (* app.get("*") *)
| LNotFound        (* the 404 handler *)
| LErrorHandler.   (* the four-argument error handler *)

#[global] Instance layer_eq_dec : EqDecision layer.
Proof. solve_decision. Defined.

(** The routes registered with [app.get], with their paths. *)
Definition routePath (l : layer) : option string :=
  match l with
  | LRoot => Some "/"
  | LHealth => Some "/health"
  | LOkok => Some "/okok"
  | LConfig => Some "/api/config"
  | LTest => Some "/api/test"
  | LSpa => Some "*"
  | _ => None
  end.

Definition routeHandler (l : layer) : World -> Request -> Response * list log_line :=
  match l with
  | LRoot => rootHandler
  | LHealth => healthHandler
  | LOkok => okokHandler
  | LConfig => configHandler
  | LTest => testHandler
  | LSpa => spaFallback
  | _ => notFoundHandler
  end.

(** What a layer does with a request: answer it, pass it on, or pass an
    error on. *)
Inductive step : Type :=
| Respond (r : Response)
| Next
| NextErr (e : Error).

(** The [cors] middleware: asks [corsOptions.origin]; on an error it calls
    [next(err)]; it answers a preflight (OPTIONS) itself with
    [optionsSuccessStatus]; otherwise it sets headers and calls [next()]. *)
Definition corsLayer (w : World) (req : Request) : step * list log_line :=
  let '(v, lg) := corsOrigin (env w) (origin req) in
  match v with
  | Reject e => (NextErr e, lg)
  | Allow =>
      if String.eqb (method req) "OPTIONS"
      then (Respond {| code := 200; payload := BEmpty |}, lg)
      else (Next, lg)
  end.

(** The logging middleware. *)
Definition loggerLayer (w : World) (req : Request) : step * list log_line :=
  (Next,
   [Log [LStr ("[" ++ now w ++ "] " ++ method req ++ " " ++ path req
               ++ " - Origin: " ++ or_else (origin req) "no-origin")]]).

(** [express.static]: other methods than GET and HEAD fall through. *)
Definition staticLayer (w : World) (req : Request) : step * list log_line :=
  if isGetOrHead (method req) then
    match build w (path req) with
    | StaticHit content => (Respond {| code := 200; payload := BFile content |}, [])
    | StaticMiss => (Next, [])
    | StaticFault e => (NextErr e, [])
    end
  else (Next, []).

(** A layer outside error handling. *)
Definition runLayer (w : World) (l : layer) (req : Request) : step * list log_line :=
  match l with
  | LCors => corsLayer w req
  | LBodyParsers =>
      match body_fault req with
      | Some e => (NextErr e, [])
      | None => (Next, [])
      end
  | LLogger => loggerLayer w req
  | LStatic => staticLayer w req
  | LNotFound => let '(r, lg) := notFoundHandler w req in (Respond r, lg)
  | LErrorHandler => (Next, [])
  | _ =>
      match routePath l with
      | Some pattern =>
          if routeMatches pattern (path req) then
            match routeDecodes pattern req with
            | Some e => (NextErr e, [])
            | None =>
                if isGetOrHead (method req)
                then let '(r, lg) := routeHandler l w req in (Respond r, lg)
                else (Next, [])
            end
          else (Next, [])
      | None => (Next, [])
      end
  end.

Definition isErrorHandler (l : layer) : bool :=
  match l with LErrorHandler => true | _ => false end.

(** How a request leaves the chain. *)
Inductive result : Type :=
| Handled (by_layer : layer) (r : Response)
| Unhandled                 (* no layer answered *)
| Unhandled_error (e : Error).  (* an error no handler took *)

(** Express dispatch: layers run in registration order; while an error is
    pending only error handlers run, otherwise they are skipped. *)
Fixpoint dispatch (w : World) (layers : list layer) (pending : option Error)
    (req : Request) : result * list log_line :=
  match layers with
  | [] =>
      (match pending with Some e => Unhandled_error e | None => Unhandled end, [])
  | l :: rest =>
      match pending with
      | Some e =>
          if isErrorHandler l
          then let '(r, lg) := errorHandler w e req in (Handled l r, lg)
          else dispatch w rest pending req
      | None =>
          if isErrorHandler l then dispatch w rest None req
          else
            let '(s, lg) := runLayer w l req in
            match s with
            | Respond r => (Handled l r, lg)
            | Next => let '(res, lg') := dispatch w rest None req in (res, (lg ++ lg')%list)
            | NextErr e =>
                let '(res, lg') := dispatch w rest (Some e) req in (res, (lg ++ lg')%list)
            end
      end
  end.

(** The chain in the order [server.js] registers it. *)
Definition appLayers : list layer :=
  [LCors; LBodyParsers; LLogger; LRoot; LHealth; LOkok; LConfig; LTest;
   LStatic; LSpa; LNotFound; LErrorHandler].

Definition app (w : World) (req : Request) : result * list log_line :=
  dispatch w appLayers None req.

(** The chain with one layer taken out. *)
Definition without (l : layer) (layers : list layer) : list layer :=
  filter (fun l' => l' ≠ l) layers.

(** The layer that answered, if any. *)
Definition answeredBy (res : result) : option layer :=
  match res with Handled l _ => Some l | _ => None end.

Definition responseOf (res : result) : option Response :=
  match res with Handled _ r => Some r | _ => None end.

(** A path one of the five API routes matches. *)
Definition registeredRoute (p : string) : bool :=
  existsb (fun pattern => routeMatches pattern p) availableEndpoints.

(** ** What Express sends *)

(** [req.fresh]: a GET or HEAD request, a response with a 2xx status or 304,
    and conditional headers that make the copy of the client fresh. *)
Definition reqFresh (req : Request) (statusCode : Z) : bool :=
  isGetOrHead (method req)
  && (((200 <=? statusCode)%Z && (statusCode <? 300)%Z) || (statusCode =? 304)%Z)
  && match validators req with CacheFresh => true | _ => false end.

(** The last step of [res.send], which [res.json] ends in: a fresh request
    is answered 304; a 204 or 304 response loses its body, and so does the
    response to a HEAD request. *)
Definition resSend (req : Request) (r : Response) : Response :=
  let statusCode := if reqFresh req (code r) then 304%Z else code r in
  {| code := statusCode;
     payload := if (statusCode =? 204)%Z || (statusCode =? 304)%Z
                   || String.eqb (method req) "HEAD"
                then BEmpty else payload r |}.

(** What is sent for the answer of the chain: JSON and text go through
    [res.send]; a file has been dealt with by [send], which leaves the body
    out for a HEAD request; the answer to a preflight has no body. *)
Definition delivered (res : result) (req : Request) : option Response :=
  match res with
  | Handled _ r =>
      Some match payload r with
           | BJson _ | BText _ => resSend req r
           | BFile _ =>
               if String.eqb (method req) "HEAD"
               then {| code := code r; payload := BEmpty |} else r
           | BEmpty => r
           end
  | _ => None
  end.

(** ** Process lifecycle: signals, the close event and the forced-exit timer *)

Module Lifecycle.

Inductive signal : Type := SIGTERM | SIGINT.

Definition signalName (s : signal) : string :=
  match s with SIGTERM => "SIGTERM" | SIGINT => "SIGINT" end.

(** The callbacks [server.js] hands to the runtime. *)
Inductive callback : Type :=
| OnServerClosed      (* the server.close callback of gracefulShutdown *)
| OnForceTimeout      (* the setTimeout callback of gracefulShutdown *)
| OnRejectionClosed.  (* the server.close callback of unhandledRejection *)

(** The process after [app.listen]: the clock in milliseconds, whether the
    server still accepts connections, the open connections, the pending
    one-shot ['close'] listeners and the armed timers (in the order they
    were registered), the exit code and time once [process.exit] ran, and
    the console. *)
Record Proc : Type := mkProc {
  clock : N;
  listening : bool;
  connections : nat;
  closeListeners : list callback;
  timers : list (N * callback);
  exited : option (Z * N);
  out : list log_line
}.

Definition console (line : log_line) (p : Proc) : Proc :=
  {| clock := clock p; listening := listening p; connections := connections p;
     closeListeners := closeListeners p; timers := timers p;
     exited := exited p; out := (out p ++ [line])%list |}.

(** [process.exit(c)]: nothing of the program runs afterwards. *)
Definition process_exit (c : Z) (p : Proc) : Proc :=
  match exited p with
  | Some _ => p
  | None =>
      {| clock := clock p; listening := listening p; connections := connections p;
         closeListeners := closeListeners p; timers := timers p;
         exited := Some (c, clock p); out := out p |}
  end.

(** [server.close(cb)]: stop accepting connections and register [cb] for
    the ['close'] event; calling it on a server that is already closing
    registers the callback all the same and does not throw. *)
Definition server_close (cb : callback) (p : Proc) : Proc :=
  {| clock := clock p; listening := false; connections := connections p;
     closeListeners := (closeListeners p ++ [cb])%list; timers := timers p;
     exited := exited p; out := out p |}.

(** [setTimeout(cb, ms)] *)
Definition setTimeout (cb : callback) (ms : N) (p : Proc) : Proc :=
  {| clock := clock p; listening := listening p; connections := connections p;
     closeListeners := closeListeners p;
     timers := (timers p ++ [((clock p + ms)%N, cb)])%list;
     exited := exited p; out := out p |}.

Definition FORCE_TIMEOUT : N := 10000.

Definition newline : string := String (ascii_of_nat 10) EmptyString.

(** [gracefulShutdown(signal)] *)
Definition gracefulShutdown (sig : signal) (p : Proc) : Proc :=
  let p1 := console (Log [LStr (newline ++ signalName sig
              ++ " signal received: closing HTTP server gracefully")]) p in
  let p2 := server_close OnServerClosed p1 in
  setTimeout OnForceTimeout FORCE_TIMEOUT p2.

(** The bodies of the three callbacks; none runs in a process that has
    exited. *)
Definition runCallback (p : Proc) (cb : callback) : Proc :=
  match exited p with
  | Some _ => p
  | None =>
      match cb with
      | OnServerClosed =>
          process_exit 0
            (console (Log [LStr "👋 Process terminated"])
               (console (Log [LStr "✅ HTTP server closed"]) p))
      | OnForceTimeout =>
          process_exit 1
            (console (LogError
               [LStr "⚠️ Could not close connections in time, forcefully shutting down"]) p)
      | OnRejectionClosed => process_exit 1 p
      end
  end.

(** [process.on('uncaughtException', ...)] *)
Definition onUncaughtException (err : Error) (p : Proc) : Proc :=
  process_exit 1
    (console (LogError [LStr (stack err)])
       (console (LogError [LStr (name err); LStr (message err)])
          (console (LogError [LStr "💥 UNCAUGHT EXCEPTION! Shutting down..."]) p))).

(** [process.on('unhandledRejection', ...)] *)
Definition onUnhandledRejection (err : Error) (p : Proc) : Proc :=
  server_close OnRejectionClosed
    (console (LogError [LStr (name err); LStr (message err)])
       (console (LogError [LStr "💥 UNHANDLED REJECTION! Shutting down..."]) p)).

(** The server emits ['close'] once it no longer listens and its last
    connection is gone; the one-shot listeners run in registration
    order. *)
Definition emitClose (p : Proc) : Proc :=
  if listening p || negb (Nat.eqb (connections p) 0) then p
  else
    fold_left runCallback (closeListeners p)
      {| clock := clock p; listening := listening p; connections := connections p;
         closeListeners := []; timers := timers p;
         exited := exited p; out := out p |}.

Definition due (t : N) (x : N * callback) : bool := (fst x <=? t)%N.

(** The timers whose deadline has passed run, in registration order (all of
    them are armed with the same delay, so this is also the order of their
    deadlines). *)
Definition fireTimers (p : Proc) : Proc :=
  fold_left runCallback (map snd (List.filter (due (clock p)) (timers p)))
    {| clock := clock p; listening := listening p; connections := connections p;
       closeListeners := closeListeners p;
       timers := List.filter (fun x => negb (due (clock p) x)) (timers p);
       exited := exited p; out := out p |}.

Definition advance (ms : N) (p : Proc) : Proc :=
  {| clock := (clock p + ms)%N; listening := listening p;
     connections := connections p; closeListeners := closeListeners p;
     timers := timers p; exited := exited p; out := out p |}.

Definition setConnections (n : nat) (p : Proc) : Proc :=
  {| clock := clock p; listening := listening p; connections := n;
     closeListeners := closeListeners p; timers := timers p;
     exited := exited p; out := out p |}.

(** What can happen to the process. *)
Inductive event : Type :=
| Signal (s : signal)          (* SIGTERM or SIGINT is delivered *)
| Rejection (err : Error)      (* a promise rejection nobody handles *)
| Exception (err : Error)      (* an exception nobody catches *)
| Connect                      (* a client connects *)
| Disconnect                   (* a connection ends *)
| Elapse (ms : N).             (* time passes *)

(** One turn of the event loop: the handler of the event, followed by the
    ['close'] event when the server has drained. *)
Definition turn (p : Proc) (ev : event) : Proc :=
  match exited p with
  | Some _ => p
  | None =>
      match ev with
      | Signal s => emitClose (gracefulShutdown s p)
      | Rejection err => emitClose (onUnhandledRejection err p)
      | Exception err => onUncaughtException err p
      | Connect =>
          if listening p then setConnections (S (connections p)) p else p
      | Disconnect => emitClose (setConnections (pred (connections p)) p)
      | Elapse ms => fireTimers (advance ms p)
      end
  end.

Definition run (p : Proc) (evs : list event) : Proc := fold_left turn evs p.

(** The process once the server listens, at time [t] with [n] open
    connections. *)
Definition started (t : N) (n : nat) : Proc :=
  {| clock := t; listening := true; connections := n; closeListeners := [];
     timers := []; exited := None; out := [] |}.

(** How often the forced-shutdown callback has run, read off the console. *)
Definition isForcedLine (line : log_line) : bool :=
  match line with
  | LogError [LStr s] =>
      String.eqb s "⚠️ Could not close connections in time, forcefully shutting down"
  | _ => false
  end.

Definition forcedRuns (p : Proc) : nat :=
  length (List.filter isForcedLine (out p)).


(** The exit code a callback ends the process with. *)
Definition callbackCode (cb : callback) : Z :=
  match cb with
  | OnServerClosed => 0
  | OnForceTimeout => 1
  | OnRejectionClosed => 1
  end.

Definition isForceTimer (x : N * callback) : Prop := snd x = OnForceTimeout.

(** In a live process every armed timer is a forced-shutdown timer due at
    most [FORCE_TIMEOUT] from now. *)
Definition timersArmed (p : Proc) : Prop :=
  exited p = None ->
  Forall (fun x => (fst x <= clock p + FORCE_TIMEOUT)%N /\ isForceTimer x)
    (timers p).

(** A live process that has received a termination signal: the server no
    longer listens, connections are still open, and a ['close'] listener
    and a timer are pending. *)
Definition draining (p : Proc) : Prop :=
  exited p = None ->
  listening p = false /\ connections p <> 0%nat
  /\ closeListeners p <> [] /\ timers p <> [].

(** What is observed of a process: the time, the server, the connections
    and the exit. *)
Definition observed (p : Proc) : N * bool * nat * option (Z * N) :=
  (clock p, listening p, connections p, exited p).

(** Two processes that behave alike: the same observation and, while they
    live, the same first ['close'] listener and timers due at the same
    times. *)
Definition alike (p q : Proc) : Prop :=
  observed p = observed q
  /\ (exited q = None ->
      listening q = false
      /\ closeListeners q <> []
      /\ hd_error (closeListeners p) = hd_error (closeListeners q)
      /\ (forall t, existsb (due t) (timers p) = existsb (due t) (timers q))
      /\ Forall isForceTimer (timers p)
      /\ Forall isForceTimer (timers q)).

(** The forced-shutdown callback has not run in a live process and has
    run at most once in any. *)
Definition forcedOnce (p : Proc) : Prop :=
  (forcedRuns p <= 1)%nat /\ (exited p = None -> forcedRuns p = 0%nat).

End Lifecycle.

(** ** Invariants of the shutdown procedure *)

Module Shutdown.

Import Lifecycle.

(** Events that neither end a connection nor ask the process to stop. *)
Definition quiet (ev : event) : bool :=
  match ev with
  | Connect | Elapse _ => true
  | _ => false
  end.

(** In a live process no armed timer is due yet. *)
Definition timersAhead (p : Proc) : Prop :=
  exited p = None -> Forall (fun x => (clock p < fst x)%N) (timers p).

(** A live process has a timer armed for [d] or earlier. *)
Definition forcedBy (d : N) (p : Proc) : Prop :=
  exited p = None -> Exists (fun x => (fst x <= d)%N) (timers p).

(** The exit code is 0 or 1, and 0 only with the server closed and no
    connection left. *)
Definition exitAccounted (p : Proc) : Prop :=
  forall c t, exited p = Some (c, t) ->
    (c = 0 \/ c = 1)%Z
    /\ (c = 0%Z -> listening p = false /\ connections p = 0%nat).

End Shutdown.

(** * Properties *)

(** ** Arrays and truthiness *)

Lemma indexOf_from_range (arr : list string) (x : string) (i : Z) :
  (0 <= i)%Z ->
  indexOf_from i arr x = (-1)%Z \/ (i <= indexOf_from i arr x)%Z.
Proof.
  revert i. induction arr as [|y rest IH]; intros i Hi; simpl.
  - now left.
  - destruct (String.eqb y x).
    + right. lia.
    + destruct (IH (i + 1)%Z ltac:(lia)) as [H|H]; [now left | right; lia].
Qed.

Lemma indexOf_from_absent (arr : list string) (x : string) (i : Z) :
  (0 <= i)%Z ->
  indexOf_from i arr x = (-1)%Z <-> x ∉ arr.
Proof.
  revert i. induction arr as [|y rest IH]; intros i Hi; simpl.
  - split; [intros _; apply not_elem_of_nil | reflexivity].
  - rewrite not_elem_of_cons. destruct (String.eqb_spec y x) as [->|Hne].
    + split; [lia | intros [H _]; congruence].
    + rewrite (IH (i + 1)%Z) by lia. split; [intros H; split; congruence | tauto].
Qed.

Lemma indexOf_found (arr : list string) (x : string) :
  negb (Z.eqb (indexOf arr x) (-1)) = true <-> x ∈ arr.
Proof.
  unfold indexOf. rewrite negb_true_iff, Z.eqb_neq.
  rewrite (indexOf_from_absent arr x 0) by lia.
  destruct (decide (x ∈ arr)); tauto.
Qed.

Lemma elem_of_filter_Boolean (arr : list (option string)) (x : string) :
  x ∈ filter_Boolean arr <-> Some x ∈ arr /\ x <> "".
Proof.
  induction arr as [|[s|] rest IH]; simpl.
  - rewrite !elem_of_nil. tauto.
  - rewrite elem_of_cons. destruct (String.eqb_spec s "") as [->|Hs]; simpl.
    + rewrite IH. split; [tauto|]. intros [[H|H] Hx]; [congruence | tauto].
    + rewrite elem_of_cons, IH. split.
      * intros [->|[H1 H2]]; [split; [now left | assumption] | tauto].
      * intros [[H|H] Hx]; [left; congruence | tauto].
  - rewrite elem_of_cons, IH. split; [tauto|]. intros [[H|H] Hx]; [discriminate | tauto].
Qed.

Lemma or_else_set (v : option string) (d s : string) :
  v = Some s -> s <> "" -> or_else v d = s.
Proof.
  intros -> Hs. simpl. now apply String.eqb_neq in Hs as ->.
Qed.

Lemma or_else_unset (v : option string) (d : string) :
  v = None \/ v = Some "" -> or_else v d = d.
Proof. intros [->| ->]; reflexivity. Qed.

(** ** The allowed origins *)

Lemma allowedOrigins_elem (env : gmap string string) (o : string) :
  o ∈ allowedOrigins env <->
  o = "http://localhost:3000" \/ o = "http://localhost:5000"
  \/ (env !! "FRONTEND_URL" = Some o /\ o <> "")
  \/ o = "https://reaxapp.vercel.app/".
Proof.
  unfold allowedOrigins, originEntries. rewrite elem_of_filter_Boolean.
  rewrite !elem_of_cons, elem_of_nil. split.
  - intros [[H|[H|[H|[H|[]]]]] Ho]; try (injection H as ->); auto.
  - intros [->|[->|[[H Ho]| ->]]]; (split; [auto 10 | try discriminate; auto]).
Qed.

(** C3: the array the server builds at start-up holds, as a set, exactly the
    origins the specification lists: the two local-development origins, the
    origin of FRONTEND_URL when that variable is present and not empty, and
    the production origin. The membership test of the policy evaluator,
    [indexOf(origin) !== -1], decides membership in that set, and the array
    has no empty entry. *)
Theorem allowedOrigins_is_spec_set (env : gmap string string) :
  list_to_set (allowedOrigins env) = specAllowedOrigins env
  /\ (forall o, negb (Z.eqb (indexOf (allowedOrigins env) o) (-1)) = true
                <-> o ∈ specAllowedOrigins env)
  /\ "" ∉ allowedOrigins env.
Proof.
  assert (Hset : forall o, o ∈ allowedOrigins env <-> o ∈ specAllowedOrigins env).
  { intros o. rewrite allowedOrigins_elem. unfold specAllowedOrigins.
    rewrite elem_of_difference, !elem_of_union, !elem_of_singleton.
    destruct (env !! "FRONTEND_URL") as [u|] eqn:Hu;
      rewrite ?elem_of_singleton, ?elem_of_empty; split.
    - intros [->|[->|[[H Ho]| ->]]]; try (split; [auto | discriminate]).
      injection H as ->. split; auto.
    - intros [[[[->| ->]| ->]| ->] Ho]; auto 6.
    - intros [->|[->|[[H Ho]| ->]]]; try discriminate; (split; [auto | discriminate]).
    - intros [[[[->| ->]|[]]| ->] Ho]; auto 6. }
  split; [|split].
  - apply set_eq. intros o. rewrite elem_of_list_to_set. apply Hset.
  - intros o. rewrite indexOf_found. apply Hset.
  - rewrite allowedOrigins_elem. intros [H|[H|[[_ H]|H]]]; congruence.
Qed.

(** The array itself keeps a repeated entry: only its membership test is
    observed. *)
Example allowedOrigins_repeated :
  allowedOrigins {[ "FRONTEND_URL" := "http://localhost:3000" ]}
  = [ "http://localhost:3000"; "http://localhost:5000";
      "http://localhost:3000"; "https://reaxapp.vercel.app/" ].
Proof. reflexivity. Qed.

(** ** The CORS policy evaluator *)

Lemma isDevelopment_true (env : gmap string string) :
  isDevelopment env = true <-> env !! "NODE_ENV" = Some "development".
Proof.
  unfold isDevelopment. destruct (env !! "NODE_ENV") as [v|].
  - rewrite String.eqb_eq. split; congruence.
  - split; discriminate.
Qed.

Lemma isDevelopment_false (env : gmap string string) :
  isDevelopment env = false <-> env !! "NODE_ENV" <> Some "development".
Proof.
  rewrite <- isDevelopment_true. destruct (isDevelopment env); split; congruence.
Qed.

(** C1, as amended: for an origin header with a non-empty value outside the
    allowed origins, the evaluator rejects with the error 'Not allowed by
    CORS' and logs the origin when NODE_ENV is not 'development', and allows
    the request, logging nothing, when it is. *)
Theorem corsOrigin_outside_allowed (env : gmap string string) (o : string) :
  o <> "" ->
  o ∉ allowedOrigins env ->
  (env !! "NODE_ENV" <> Some "development" ->
   corsOrigin env (Some o)
   = (Reject (new_Error "Not allowed by CORS"),
      [Log [LStr "Blocked origin:"; LStr o]]))
  /\ (env !! "NODE_ENV" = Some "development" ->
      corsOrigin env (Some o) = (Allow, [])).
Proof.
  intros Ho Hout. unfold corsOrigin. simpl.
  apply String.eqb_neq in Ho as ->. simpl.
  destruct (negb (Z.eqb (indexOf (allowedOrigins env) o) (-1))) eqn:Hidx.
  { apply indexOf_found in Hidx. contradiction. }
  split; intros Hdev.
  - apply isDevelopment_false in Hdev as ->. reflexivity.
  - apply isDevelopment_true in Hdev as ->. reflexivity.
Qed.

Lemma corsOrigin_outside_allowed_witness :
  corsOrigin productionEnv (Some "https://evil.example")
  = (Reject (new_Error "Not allowed by CORS"),
     [Log [LStr "Blocked origin:"; LStr "https://evil.example"]])
  /\ corsOrigin developmentEnv (Some "https://evil.example")
     = (Allow, []).
Proof.
  split.
  - apply (corsOrigin_outside_allowed productionEnv
             "https://evil.example").
    + discriminate.
    + rewrite allowedOrigins_elem. vm_compute. intuition discriminate.
    + vm_compute. discriminate.
  - apply (corsOrigin_outside_allowed developmentEnv
             "https://evil.example").
    + discriminate.
    + rewrite allowedOrigins_elem. vm_compute. intuition discriminate.
    + reflexivity.
Defined.

(** An origin header with an empty value is outside the allowed origins, yet
    in production the evaluator allows it and logs nothing: [!origin] holds
    for the empty string as it does for a missing header. *)
Lemma corsOrigin_empty_header_allowed :
  ("" ∉ allowedOrigins productionEnv)
  /\ productionEnv !! "NODE_ENV" = Some "production"
  /\ corsOrigin productionEnv (Some "") = (Allow, []).
Proof.
  split; [|split; reflexivity].
  rewrite allowedOrigins_elem. intros [H|[H|[[_ H]|H]]]; congruence.
Qed.

(** C9: a request without an origin header is allowed by the evaluator in
    every environment, with nothing logged; the CORS layer therefore never
    passes an error on for it: it answers a preflight and lets any other
    request through. *)
Theorem corsOrigin_no_header (w : World) (m p : string)
    (v : conditional) (pf bf : option Error) :
  corsOrigin (env w) None = (Allow, [])
  /\ corsLayer w (mkRequest m p None v pf bf)
     = (if String.eqb m "OPTIONS"
        then Respond {| code := 200; payload := BEmpty |} else Next, []).
Proof.
  split; [reflexivity|].
  unfold corsLayer. simpl. destruct (String.eqb m "OPTIONS"); reflexivity.
Qed.

(** ** The route handlers *)

(** C4, as amended: the [tfn] field of GET /okok is the value of
    PHONE_NUMBER when that variable is set to a non-empty string, and the
    literal '855-550-2644' when it is unset or empty. *)
Theorem okok_phone_number (w : World) (req : Request) :
  (forall v, env w !! "PHONE_NUMBER" = Some v -> v <> "" ->
             bodyField "tfn" (fst (okokHandler w req)) = Some (JStr v))
  /\ (env w !! "PHONE_NUMBER" = None \/ env w !! "PHONE_NUMBER" = Some "" ->
      bodyField "tfn" (fst (okokHandler w req)) = Some (JStr "855-550-2644")).
Proof.
  split.
  - intros v Hv Hne. unfold bodyField. simpl.
    now rewrite (or_else_set _ DEFAULT_PHONE v Hv Hne).
  - intros H. unfold bodyField. simpl. now rewrite (or_else_unset _ _ H).
Qed.

Lemma okok_phone_number_witness :
  bodyField "tfn"
    (fst (okokHandler (worldWith {[ "PHONE_NUMBER" := "800-555-0100" ]})
            (plainRequest "GET" "/okok")))
  = Some (JStr "800-555-0100")
  /\ bodyField "tfn"
       (fst (okokHandler (worldWith ∅) (plainRequest "GET" "/okok")))
     = Some (JStr "855-550-2644").
Proof.
  split.
  - apply (okok_phone_number (worldWith {[ "PHONE_NUMBER" := "800-555-0100" ]})).
    + reflexivity.
    + discriminate.
  - apply (okok_phone_number (worldWith ∅)). left. reflexivity.
Defined.

(** With PHONE_NUMBER set to the empty string the field is not that string
    but the default literal. *)
Lemma okok_empty_phone_number :
  env (worldWith {[ "PHONE_NUMBER" := "" ]}) !! "PHONE_NUMBER" = Some ""
  /\ bodyField "tfn"
       (fst (okokHandler (worldWith {[ "PHONE_NUMBER" := "" ]})
               (plainRequest "GET" "/okok")))
     = Some (JStr "855-550-2644").
Proof. split; reflexivity. Qed.

(** C10, as amended: in every environment the [tfn] field of GET /okok and
    the [phoneNumber] field of GET /api/config hold the same string: the
    value of PHONE_NUMBER when that variable is set to a non-empty string,
    and the literal '855-550-2644' when it is unset or empty. *)
Theorem phone_number_agrees (w : World) (req req' : Request) :
  bodyField "tfn" (fst (okokHandler w req))
  = bodyField "phoneNumber" (fst (configHandler w req'))
  /\ (forall v, env w !! "PHONE_NUMBER" = Some v -> v <> "" ->
        bodyField "tfn" (fst (okokHandler w req)) = Some (JStr v)
        /\ bodyField "phoneNumber" (fst (configHandler w req')) = Some (JStr v))
  /\ (env w !! "PHONE_NUMBER" = None \/ env w !! "PHONE_NUMBER" = Some "" ->
      bodyField "tfn" (fst (okokHandler w req)) = Some (JStr "855-550-2644")
      /\ bodyField "phoneNumber" (fst (configHandler w req'))
         = Some (JStr "855-550-2644")).
Proof.
  unfold bodyField. simpl. split; [reflexivity|]. split.
  - intros v Hv Hne. now rewrite (or_else_set _ DEFAULT_PHONE v Hv Hne).
  - intros H. now rewrite (or_else_unset _ _ H).
Qed.

Lemma phone_number_agrees_witness :
  (bodyField "tfn"
     (fst (okokHandler (worldWith {[ "PHONE_NUMBER" := "800-555-0100" ]})
             (plainRequest "GET" "/okok")))
   = Some (JStr "800-555-0100")
   /\ bodyField "phoneNumber"
        (fst (configHandler (worldWith {[ "PHONE_NUMBER" := "800-555-0100" ]})
                (plainRequest "GET" "/api/config")))
      = Some (JStr "800-555-0100"))
  /\ (bodyField "tfn"
        (fst (okokHandler (worldWith ∅) (plainRequest "GET" "/okok")))
      = Some (JStr "855-550-2644")
      /\ bodyField "phoneNumber"
           (fst (configHandler (worldWith ∅) (plainRequest "GET" "/api/config")))
         = Some (JStr "855-550-2644")).
Proof.
  split.
  - apply (phone_number_agrees (worldWith {[ "PHONE_NUMBER" := "800-555-0100" ]})).
    + reflexivity.
    + discriminate.
  - apply (phone_number_agrees (worldWith ∅)). left. reflexivity.
Defined.

(** With PHONE_NUMBER set to the empty string, neither field holds the value
    of the variable: both hold the default literal. *)
Lemma phone_fields_ignore_empty_value :
  env (worldWith {[ "PHONE_NUMBER" := "" ]}) !! "PHONE_NUMBER" = Some ""
  /\ bodyField "phoneNumber"
       (fst (configHandler (worldWith {[ "PHONE_NUMBER" := "" ]})
               (plainRequest "GET" "/api/config")))
     = Some (JStr "855-550-2644")
  /\ bodyField "tfn"
       (fst (okokHandler (worldWith {[ "PHONE_NUMBER" := "" ]})
               (plainRequest "GET" "/okok")))
     = Some (JStr "855-550-2644").
Proof. repeat split. Qed.

(** ** The routing chain *)

Arguments routeMatches : simpl never.
Arguments corsOrigin : simpl never.
Arguments runLayer : simpl never.

Lemma routeMatches_star (p : string) : routeMatches "*" p = true.
Proof. reflexivity. Qed.

Lemma isGetOrHead_cases (m : string) :
  isGetOrHead m = true -> m = "GET" \/ m = "HEAD".
Proof.
  unfold isGetOrHead. intros H. apply orb_true_iff in H as [H|H];
    apply String.eqb_eq in H; auto.
Qed.

Lemma corsOrigin_allow_log (e : gmap string string) (o : option string)
    (lg : list log_line) :
  corsOrigin e o = (Allow, lg) -> lg = [].
Proof.
  unfold corsOrigin. destruct o as [s|]; [|congruence].
  repeat match goal with |- context [if ?b then _ else _] => destruct b end;
    congruence.
Qed.

Lemma registeredRoute_false (p : string) :
  registeredRoute p = false ->
  routeMatches "/" p = false /\ routeMatches "/health" p = false
  /\ routeMatches "/okok" p = false /\ routeMatches "/api/config" p = false
  /\ routeMatches "/api/test" p = false.
Proof.
  unfold registeredRoute. simpl. rewrite !orb_false_iff. tauto.
Qed.

(** While an error is pending, only the error handler answers. *)
Lemma dispatch_pending_answer (w : World) (layers : list layer) (e : Error)
    (req : Request) :
  answeredBy (fst (dispatch w layers (Some e) req)) = Some LErrorHandler
  \/ answeredBy (fst (dispatch w layers (Some e) req)) = None.
Proof.
  induction layers as [|l rest IH]; simpl.
  - now right.
  - destruct (isErrorHandler l) eqn:Hl.
    + destruct l; try discriminate. now left.
    + exact IH.
Qed.

(** A chain in which the SPA fallback stands before the 404 handler never
    lets a request reach that handler when the fallback answers it or
    passes an error on. *)
Lemma dispatch_fallback_shields (w : World) (req : Request)
    (before after : list layer) (pending : option Error) :
  LNotFound ∉ before ->
  (exists r lg, runLayer w LSpa req = (Respond r, lg))
  \/ (exists e lg, runLayer w LSpa req = (NextErr e, lg)) ->
  answeredBy (fst (dispatch w (before ++ LSpa :: after) pending req))
  <> Some LNotFound.
Proof.
  intros Hbefore Hspa. revert pending.
  induction before as [|l rest IH]; intros [e|].
  - destruct (dispatch_pending_answer w ([] ++ LSpa :: after) e req) as [H|H];
      rewrite H; discriminate.
  - simpl. destruct Hspa as [(r & lg & ->)|(e & lg & ->)]; [simpl; discriminate|].
    pose proof (dispatch_pending_answer w after e req) as H.
    destruct (dispatch w after (Some e) req) as [res lg'].
    simpl in *. destruct H as [-> | ->]; discriminate.
  - destruct (dispatch_pending_answer w ((l :: rest) ++ LSpa :: after) e req)
      as [H|H]; rewrite H; discriminate.
  - apply not_elem_of_cons in Hbefore as [Hl Hrest]. specialize (IH Hrest).
    simpl. destruct (isErrorHandler l); [apply IH|].
    destruct (runLayer w l req) as [[r'| |e] lg'].
    + simpl. congruence.
    + specialize (IH None).
      destruct (dispatch w (rest ++ LSpa :: after) None req); exact IH.
    + specialize (IH (Some e)).
      destruct (dispatch w (rest ++ LSpa :: after) (Some e) req); exact IH.
Qed.

(** Whatever the chain, a response of the 404 handler is the one
    [notFoundHandler] builds. *)
Lemma dispatch_notFound_response (w : World) (req : Request)
    (layers : list layer) (pending : option Error) (r : Response) :
  fst (dispatch w layers pending req) = Handled LNotFound r ->
  r = fst (notFoundHandler w req).
Proof.
  revert pending. induction layers as [|l rest IH]; intros pending; simpl.
  - destruct pending; discriminate.
  - destruct pending as [e|].
    + destruct (isErrorHandler l) eqn:Hl; [|apply IH].
      destruct l; discriminate.
    + destruct (isErrorHandler l) eqn:Hl; [apply IH|].
      destruct (runLayer w l req) as [[r'| |e] lg'] eqn:Hrun.
      * simpl. intros H. injection H as -> ->. unfold runLayer in Hrun. simpl in Hrun.
        congruence.
      * specialize (IH None).
        destruct (dispatch w rest None req); exact IH.
      * specialize (IH (Some e)).
        destruct (dispatch w rest (Some e) req); exact IH.
Qed.

Lemma without_spa :
  without LSpa appLayers
  = [LCors; LBodyParsers; LLogger; LRoot; LHealth; LOkok; LConfig; LTest;
     LStatic; LNotFound; LErrorHandler].
Proof. reflexivity. Qed.

Section Unmatched.

Variables (w : World) (req : Request).
Hypothesis Hmethod : isGetOrHead (method req) = true.
Hypothesis Hcors : fst (corsOrigin (env w) (origin req)) = Allow.
Hypothesis Hbody : body_fault req = None.
Hypothesis Hroute : registeredRoute (path req) = false.
Hypothesis Hstatic : build w (path req) = StaticMiss.

Lemma unmatched_not_options : String.eqb (method req) "OPTIONS" = false.
Proof. destruct (isGetOrHead_cases _ Hmethod) as [-> | ->]; reflexivity. Qed.

Lemma unmatched_cors : runLayer w LCors req = (Next, []).
Proof.
  unfold runLayer, corsLayer.
  destruct (corsOrigin (env w) (origin req)) as [v lg] eqn:E.
  simpl in Hcors. subst v. rewrite (corsOrigin_allow_log _ _ _ E).
  now rewrite unmatched_not_options.
Qed.

Lemma unmatched_body : runLayer w LBodyParsers req = (Next, []).
Proof. unfold runLayer. now rewrite Hbody. Qed.

Lemma unmatched_route (l : layer) (pattern : string) :
  routePath l = Some pattern ->
  pattern ∈ availableEndpoints ->
  runLayer w l req = (Next, []).
Proof.
  intros Hl Hin.
  assert (Hno : routeMatches pattern (path req) = false).
  { destruct (registeredRoute_false _ Hroute) as (H1 & H2 & H3 & H4 & H5).
    unfold availableEndpoints in Hin.
    repeat (apply elem_of_cons in Hin as [-> | Hin]; [assumption|]).
    now apply elem_of_nil in Hin. }
  destruct l; try discriminate; unfold runLayer; rewrite Hl, Hno; reflexivity.
Qed.

Lemma unmatched_static : runLayer w LStatic req = (Next, []).
Proof. unfold runLayer, staticLayer. now rewrite Hmethod, Hstatic. Qed.

(** Such a request passes the nine layers registered before the SPA
    fallback, leaving the line of the logging middleware. *)
Lemma unmatched_prefix (rest : list layer) :
  dispatch w ([LCors; LBodyParsers; LLogger; LRoot; LHealth; LOkok; LConfig;
               LTest; LStatic] ++ rest) None req
  = (fst (dispatch w rest None req),
     (snd (loggerLayer w req) ++ snd (dispatch w rest None req))%list).
Proof.
  simpl. rewrite unmatched_cors, unmatched_body.
  rewrite (unmatched_route LRoot "/"), (unmatched_route LHealth "/health"),
    (unmatched_route LOkok "/okok"), (unmatched_route LConfig "/api/config"),
    (unmatched_route LTest "/api/test"), unmatched_static;
    try reflexivity; try (unfold availableEndpoints; set_solver).
  now destruct (dispatch w rest None req).
Qed.

Hypothesis Hpath : path_fault req = None.

Lemma unmatched_spa :
  runLayer w LSpa req
  = (Respond (fst (spaFallback w req)), snd (spaFallback w req)).
Proof.
  unfold runLayer. simpl routePath. cbv iota beta.
  rewrite routeMatches_star. unfold routeDecodes. simpl. rewrite Hpath, Hmethod.
  now destruct (spaFallback w req).
Qed.

End Unmatched.

(** X9: a GET request to the path of one of the five API routes, allowed by
    the CORS policy and accepted by the body parsers, is answered by the
    handler of that route, whatever the build directory holds: a static file
    cannot take the place of an API route. *)
Lemma app_reaches_route (w : World) (req : Request) (l : layer) (pattern : string) :
  (l, pattern) ∈ [(LRoot, "/"); (LHealth, "/health"); (LOkok, "/okok");
                  (LConfig, "/api/config"); (LTest, "/api/test")] ->
  method req = "GET" ->
  path req = pattern ->
  fst (corsOrigin (env w) (origin req)) = Allow ->
  body_fault req = None ->
  fst (app w req) = Handled l (fst (routeHandler l w req)).
Proof.
  intros Hin Hm Hp Hc Hb.
  assert (Hget : isGetOrHead (method req) = true) by now rewrite Hm.
  unfold app, appLayers. simpl dispatch.
  rewrite (unmatched_cors w req Hget Hc), (unmatched_body w req Hb).
  repeat (apply elem_of_cons in Hin as [Hin|Hin];
          [injection Hin as -> ->; unfold runLayer; simpl; rewrite Hp, Hm;
           reflexivity|]).
  now apply elem_of_nil in Hin.
Qed.

(** *** Errors on their way to the error handler *)

Lemma corsOrigin_reject_error (e : gmap string string) (o : option string)
    (err : Error) :
  fst (corsOrigin e o) = Reject err -> err = new_Error "Not allowed by CORS".
Proof.
  unfold corsOrigin. destruct o as [s|]; [|discriminate].
  repeat match goal with |- context [if ?b then _ else _] => destruct b end;
    simpl; congruence.
Qed.

Lemma route_error_source (w : World) (req : Request) (l : layer)
    (pattern : string) (err : Error) (lg : list log_line) :
  routePath l = Some pattern ->
  runLayer w l req = (NextErr err, lg) ->
  path_fault req = Some err.
Proof.
  intros Hl.
  destruct l; try discriminate; unfold runLayer; rewrite Hl;
    (destruct (routeMatches pattern (path req)); [|discriminate]);
    unfold routeDecodes; destruct (String.eqb pattern "*");
    try (destruct (path_fault req) as [e|];
         [intros H; injection H as <- _; reflexivity|]);
    destruct (isGetOrHead (method req)); try discriminate;
    match goal with
    | |- context [let '(_, _) := ?h in _] => destruct h; discriminate
    end.
Qed.

(** An error a layer of the application passes on comes from the CORS
    policy, from the body parsers, from the decoding of the path or from
    [express.static]. *)
Lemma layer_error_source (w : World) (req : Request) (l : layer) (err : Error)
    (lg : list log_line) :
  runLayer w l req = (NextErr err, lg) ->
  err = new_Error "Not allowed by CORS"
  \/ body_fault req = Some err
  \/ path_fault req = Some err
  \/ build w (path req) = StaticFault err.
Proof.
  destruct (routePath l) as [pattern|] eqn:Hl.
  { intros H. right. right. left. exact (route_error_source w req l pattern err lg Hl H). }
  unfold runLayer. destruct l; try discriminate.
  - unfold corsLayer. destruct (corsOrigin (env w) (origin req)) as [v lg0] eqn:E.
    destruct v as [|e].
    + destruct (String.eqb (method req) "OPTIONS"); discriminate.
    + intros H. injection H as <- _. left.
      apply (corsOrigin_reject_error (env w) (origin req)). now rewrite E.
  - destruct (body_fault req) as [e|]; [|discriminate].
    intros H. injection H as <- _. auto.
  - unfold staticLayer. destruct (isGetOrHead (method req)); [|discriminate].
    destruct (build w (path req)) as [c| |e]; try discriminate.
    intros H. injection H as <- _. auto.
Qed.

(** What the error handler answers in a chain, it answers to an error that
    one of the layers has passed on. *)
Lemma dispatch_error_answer (w : World) (req : Request) (layers : list layer)
    (pending : option Error) (r : Response) :
  fst (dispatch w layers pending req) = Handled LErrorHandler r ->
  exists err, r = fst (errorHandler w err req)
    /\ (pending = Some err
        \/ exists l lg, runLayer w l req = (NextErr err, lg)).
Proof.
  revert pending. induction layers as [|l rest IH]; intros pending; simpl.
  - destruct pending; discriminate.
  - destruct pending as [e|].
    + destruct (isErrorHandler l) eqn:Hl.
      * simpl. intros H. injection H as _ <-. exists e.
        split; [reflexivity|now left].
      * intros H. destruct (IH (Some e) H) as (err & Hr & [Hp|Hp]); eauto.
    + destruct (isErrorHandler l) eqn:Hl.
      * intros H. destruct (IH None H) as (err & Hr & [Hp|Hp]);
          [discriminate|eauto].
      * destruct (runLayer w l req) as [[r'| |e] lg'] eqn:Hrun.
        -- simpl. intros H. injection H as -> _. discriminate.
        -- specialize (IH None). destruct (dispatch w rest None req).
           intros H. destruct (IH H) as (err & Hr & [Hp|Hp]);
             [discriminate|eauto].
        -- specialize (IH (Some e)). destruct (dispatch w rest (Some e) req).
           intros H. destruct (IH H) as (err & Hr & [Hp|Hp]).
           ++ injection Hp as <-. exists e. split; [exact Hr|].
              right. exists l, lg'. exact Hrun.
           ++ exists err. split; [exact Hr|]. right. exact Hp.
Qed.

Lemma errorHandler_code_range (w : World) (err : Error) (req : Request) :
  (400 <= code (fst (errorHandler w err req)) <= 599)%Z.
Proof.
  unfold errorHandler, statusNumber. simpl.
  destruct (status err) as [[c Hc]|]; simpl; [|lia].
  unfold isErrorStatus in Hc. apply andb_true_iff in Hc as [H1 H2].
  apply Z.leb_le in H1, H2.
  destruct (Z.eqb_spec c 0); lia.
Qed.

Lemma resSend_error (req : Request) (r : Response) :
  (400 <= code r)%Z -> method req <> "HEAD" -> resSend req r = r.
Proof.
  intros Hc Hm. unfold resSend, reqFresh.
  replace ((200 <=? code r)%Z && (code r <? 300)%Z || (code r =? 304)%Z)
    with false.
  2:{ symmetry. apply orb_false_iff. split.
      - apply andb_false_iff. right. apply Z.ltb_ge. lia.
      - apply Z.eqb_neq. lia. }
  rewrite andb_false_r. simpl.
  replace (code r =? 204)%Z with false by (symmetry; apply Z.eqb_neq; lia).
  replace (code r =? 304)%Z with false by (symmetry; apply Z.eqb_neq; lia).
  apply String.eqb_neq in Hm. rewrite Hm. now destruct r.
Qed.

(** C5: what the error handler answers in the application, it answers to an
    error of the CORS policy, the body parsers, the decoding of the path or
    [express.static]; and to every error it answers with a JSON envelope
    whose message is the error's own message when NODE_ENV is 'development'
    and 'Something went wrong' otherwise, which always carries the
    timestamp, and whose status is the error's own status when there is one
    and 500 otherwise; the envelope is sent as it is. *)
Theorem errorHandler_envelope (w : World) (req : Request) :
  (forall r, fst (app w req) = Handled LErrorHandler r ->
     exists err, r = fst (errorHandler w err req)
       /\ (err = new_Error "Not allowed by CORS"
           \/ body_fault req = Some err
           \/ path_fault req = Some err
           \/ build w (path req) = StaticFault err))
  /\ (forall err,
        (env w !! "NODE_ENV" = Some "development" ->
         bodyField "message" (fst (errorHandler w err req))
         = Some (JStr (message err)))
        /\ (env w !! "NODE_ENV" <> Some "development" ->
            bodyField "message" (fst (errorHandler w err req))
            = Some (JStr "Something went wrong"))
        /\ bodyField "timestamp" (fst (errorHandler w err req))
           = Some (JStr (now w))
        /\ (forall s, status err = Some s ->
              code (fst (errorHandler w err req)) = status_code s)
        /\ (status err = None -> code (fst (errorHandler w err req)) = 500%Z)
        /\ (method req <> "HEAD" ->
            delivered (Handled LErrorHandler (fst (errorHandler w err req))) req
            = Some (fst (errorHandler w err req)))).
Proof.
  split.
  - intros r H. unfold app in H.
    destruct (dispatch_error_answer w req appLayers None r H)
      as (err & Hr & [Hp|(l & lg & Hrun)]); [discriminate|].
    exists err. split; [exact Hr|]. exact (layer_error_source w req l err lg Hrun).
  - intros err. repeat split.
    + intros H. unfold bodyField. simpl.
      apply isDevelopment_true in H as ->. reflexivity.
    + intros H. unfold bodyField. simpl.
      apply isDevelopment_false in H as ->. reflexivity.
    + intros [c Hc] Hs. unfold errorHandler, statusNumber. simpl. rewrite Hs. simpl.
      pose proof (proj1 (andb_true_iff _ _) Hc) as [H1 _].
      apply Z.leb_le in H1. destruct (Z.eqb_spec c 0); [lia|reflexivity].
    + intros Hs. unfold errorHandler, statusNumber. simpl. now rewrite Hs.
    + intros Hm. unfold delivered. simpl payload. cbv iota.
      rewrite resSend_error; [reflexivity| |exact Hm].
      apply errorHandler_code_range.
Qed.

Lemma errorHandler_envelope_witness :
  (exists err,
     {| code := 400;
        payload := BJson (JObj [
          ("error", JStr "Internal Server Error");
          ("message", JStr "Something went wrong");
          ("timestamp", JStr "2026-01-01T00:00:00.000Z") ]) |}
     = fst (errorHandler (worldWith ∅) err
              {| method := "POST"; path := "/api/test"; origin := None;
                 validators := Unconditional; path_fault := None;
                 body_fault := Some (httpError status400 "SyntaxError"
                                       "Unexpected token }") |}))
  /\ bodyField "message"
       (fst (errorHandler (worldWith developmentEnv)
               (httpError status400 "SyntaxError" "Unexpected token }")
               (plainRequest "GET" "/okok")))
     = Some (JStr "Unexpected token }")
  /\ bodyField "message"
       (fst (errorHandler (worldWith ∅)
               (httpError status400 "SyntaxError" "Unexpected token }")
               (plainRequest "GET" "/okok")))
     = Some (JStr "Something went wrong")
  /\ code (fst (errorHandler (worldWith ∅)
                  (httpError status400 "SyntaxError" "Unexpected token }")
                  (plainRequest "GET" "/okok"))) = 400%Z
  /\ code (fst (errorHandler (worldWith ∅) (new_Error "Not allowed by CORS")
                  (plainRequest "GET" "/okok"))) = 500%Z
  /\ delivered
       (Handled LErrorHandler
          (fst (errorHandler (worldWith ∅) (new_Error "Not allowed by CORS")
                  (plainRequest "GET" "/okok"))))
       (plainRequest "GET" "/okok")
     = Some (fst (errorHandler (worldWith ∅) (new_Error "Not allowed by CORS")
                    (plainRequest "GET" "/okok"))).
Proof.
  split; [|split; [|split; [|split; [|split]]]].
  - destruct (proj1 (errorHandler_envelope (worldWith ∅)
                       {| method := "POST"; path := "/api/test"; origin := None;
                          validators := Unconditional; path_fault := None;
                          body_fault := Some (httpError status400 "SyntaxError"
                                                "Unexpected token }") |})
                _ eq_refl) as (err & Hr & _).
    exists err. exact Hr.
  - destruct (proj2 (errorHandler_envelope (worldWith developmentEnv)
                       (plainRequest "GET" "/okok"))
                (httpError status400 "SyntaxError" "Unexpected token }"))
      as (H & _).
    apply H. reflexivity.
  - destruct (proj2 (errorHandler_envelope (worldWith ∅)
                       (plainRequest "GET" "/okok"))
                (httpError status400 "SyntaxError" "Unexpected token }"))
      as (_ & H & _).
    apply H. discriminate.
  - destruct (proj2 (errorHandler_envelope (worldWith ∅)
                       (plainRequest "GET" "/okok"))
                (httpError status400 "SyntaxError" "Unexpected token }"))
      as (_ & _ & _ & H & _).
    apply (H status400). reflexivity.
  - destruct (proj2 (errorHandler_envelope (worldWith ∅)
                       (plainRequest "GET" "/okok"))
                (new_Error "Not allowed by CORS"))
      as (_ & _ & _ & _ & H & _).
    apply H. reflexivity.
  - destruct (proj2 (errorHandler_envelope (worldWith ∅)
                       (plainRequest "GET" "/okok"))
                (new_Error "Not allowed by CORS"))
      as (_ & _ & _ & _ & _ & H).
    apply H. discriminate.
Defined.

(** *** GET /api/config *)

Lemma config_route_answers (w : World) (req : Request) :
  method req = "GET" ->
  path req = "/api/config" ->
  fst (corsOrigin (env w) (origin req)) = Allow ->
  body_fault req = None ->
  fst (app w req) = Handled LConfig (fst (configHandler w req)).
Proof.
  intros Hm Hp Hc Hb.
  assert (Hget : isGetOrHead (method req) = true) by now rewrite Hm.
  unfold app, appLayers. simpl dispatch.
  rewrite (unmatched_cors w req Hget Hc), (unmatched_body w req Hb).
  unfold runLayer. simpl. rewrite Hp, Hm. reflexivity.
Qed.

(** C2, as amended: a GET request to /api/config that the CORS policy allows
    and the body parsers accept, and that is not a fresh conditional request,
    is sent status 200 and a JSON body in which the five lockdown flags are
    all [true]; the flags the handler writes are literals, the same for
    every request and every environment. *)
Theorem config_flags_true (w : World) (req : Request) :
  (method req = "GET" ->
   path req = "/api/config" ->
   fst (corsOrigin (env w) (origin req)) = Allow ->
   body_fault req = None ->
   validators req <> CacheFresh ->
   exists r, delivered (fst (app w req)) req = Some r
     /\ code r = 200%Z
     /\ Forall (fun k => bodyField k r = Some (JBool true))
          [ "enableFullscreenLock"; "blockEscapeKey"; "blockF11Key";
            "blockAllKeyboardShortcuts"; "reEnterFullscreenOnExit" ])
  /\ Forall (fun k => bodyField k (fst (configHandler w req)) = Some (JBool true))
       [ "enableFullscreenLock"; "blockEscapeKey"; "blockF11Key";
         "blockAllKeyboardShortcuts"; "reEnterFullscreenOnExit" ]
  /\ (forall (w' : World) (req' : Request) (k : string),
        k ∈ [ "enableFullscreenLock"; "blockEscapeKey"; "blockF11Key";
              "blockAllKeyboardShortcuts"; "reEnterFullscreenOnExit" ] ->
        bodyField k (fst (configHandler w req))
        = bodyField k (fst (configHandler w' req'))).
Proof.
  split; [|split].
  - intros Hm Hp Hc Hb Hv.
    rewrite (config_route_answers w req Hm Hp Hc Hb).
    exists (fst (configHandler w req)). split; [|split].
    + unfold delivered. simpl payload. cbv iota. f_equal.
      unfold resSend, reqFresh. simpl code.
      assert (Hf : match validators req with CacheFresh => true | _ => false end
                   = false) by (destruct (validators req); congruence).
      rewrite Hf, andb_false_r, Hm. reflexivity.
    + reflexivity.
    + repeat constructor.
  - repeat constructor.
  - intros w' req' k Hk.
    repeat (apply elem_of_cons in Hk as [->|Hk]; [reflexivity|]).
    now apply elem_of_nil in Hk.
Qed.

Lemma config_flags_true_witness :
  exists r,
    delivered (fst (app (worldWith productionEnv)
                      (plainRequest "GET" "/api/config")))
      (plainRequest "GET" "/api/config") = Some r
    /\ code r = 200%Z
    /\ Forall (fun k => bodyField k r = Some (JBool true))
         [ "enableFullscreenLock"; "blockEscapeKey"; "blockF11Key";
           "blockAllKeyboardShortcuts"; "reEnterFullscreenOnExit" ].
Proof.
  apply (config_flags_true (worldWith productionEnv)
           (plainRequest "GET" "/api/config")); try reflexivity.
  discriminate.
Defined.

(** A GET request to /api/config with a condition that makes the copy of
    the client fresh, such as If-None-Match: *, is sent 304 and no body: no
    flag reaches the client. *)
Lemma config_fresh_request_not_modified :
  delivered
    (fst (app (worldWith productionEnv)
            {| method := "GET"; path := "/api/config"; origin := None;
               validators := CacheFresh; path_fault := None;
               body_fault := None |}))
    {| method := "GET"; path := "/api/config"; origin := None;
       validators := CacheFresh; path_fault := None; body_fault := None |}
  = Some {| code := 304; payload := BEmpty |}
  /\ bodyField "enableFullscreenLock" {| code := 304; payload := BEmpty |} = None.
Proof. split; reflexivity. Qed.

(** C7, as amended: with the SPA fallback in the routing chain no GET or
    HEAD request reaches the 404 handler (the fallback is registered for GET
    only, so requests with another method pass it by); with the fallback
    taken out, a GET or HEAD request that the CORS layer and the body
    parsers let through, to a path without a registered route or a static
    asset, does reach it; and in any chain a request that reaches it is
    answered 404 with a payload naming the method and the path and listing
    the five API endpoints. *)
Theorem notFound_reachability (w : World) (req : Request) :
  (isGetOrHead (method req) = true ->
   answeredBy (fst (app w req)) <> Some LNotFound)
  /\ (isGetOrHead (method req) = true ->
      fst (corsOrigin (env w) (origin req)) = Allow ->
      body_fault req = None ->
      registeredRoute (path req) = false ->
      build w (path req) = StaticMiss ->
      answeredBy (fst (dispatch w (without LSpa appLayers) None req))
      = Some LNotFound)
  /\ (forall (layers : list layer) (r : Response),
        fst (dispatch w layers None req) = Handled LNotFound r ->
        code r = 404%Z
        /\ payload r
           = BJson (JObj [
               ("error", JStr "Not Found");
               ("message", JStr ("Cannot " ++ method req ++ " " ++ path req));
               ("availableEndpoints",
                JArr [JStr "/"; JStr "/health"; JStr "/okok";
                      JStr "/api/config"; JStr "/api/test"]) ])).
Proof.
  split; [|split].
  - intros Hm.
    apply (dispatch_fallback_shields w req
             [LCors; LBodyParsers; LLogger; LRoot; LHealth; LOkok; LConfig;
              LTest; LStatic] [LNotFound; LErrorHandler] None).
    + rewrite !not_elem_of_cons. repeat split; try discriminate.
      apply not_elem_of_nil.
    + unfold runLayer. simpl routePath. cbv iota beta.
      rewrite routeMatches_star. unfold routeDecodes. simpl.
      destruct (path_fault req) as [e|]; [eauto|].
      rewrite Hm. destruct (spaFallback w req) as [r lg]. eauto.
  - intros Hm Hc Hb Hr Hs. rewrite without_spa.
    change [LCors; LBodyParsers; LLogger; LRoot; LHealth; LOkok; LConfig; LTest;
            LStatic; LNotFound; LErrorHandler]
      with ([LCors; LBodyParsers; LLogger; LRoot; LHealth; LOkok; LConfig; LTest;
             LStatic] ++ [LNotFound; LErrorHandler])%list.
    rewrite (unmatched_prefix w req Hm Hc Hb Hr Hs). reflexivity.
  - intros layers r H.
    apply dispatch_notFound_response in H as ->. split; reflexivity.
Qed.

Lemma notFound_reachability_witness :
  answeredBy (fst (app (worldWith ∅) (plainRequest "GET" "/dashboard")))
  <> Some LNotFound
  /\ answeredBy (fst (dispatch (worldWith ∅) (without LSpa appLayers) None
                        (plainRequest "GET" "/dashboard")))
     = Some LNotFound
  /\ code (fst (notFoundHandler (worldWith ∅)
                  (plainRequest "GET" "/dashboard"))) = 404%Z.
Proof.
  split; [|split].
  - apply (notFound_reachability (worldWith ∅)
             (plainRequest "GET" "/dashboard")).
    reflexivity.
  - apply (notFound_reachability (worldWith ∅)
             (plainRequest "GET" "/dashboard")); reflexivity.
  - apply (proj2 (proj2 (notFound_reachability (worldWith ∅)
                            (plainRequest "GET" "/dashboard")))
             (without LSpa appLayers)).
    reflexivity.
Defined.

(** A POST request to an unknown path is answered by the 404 handler although
    the SPA fallback is in the chain. *)
Lemma post_reaches_notFound :
  (LSpa ∈ appLayers)
  /\ app (worldWith ∅) (plainRequest "POST" "/submit")
     = (Handled LNotFound
          {| code := 404;
             payload := BJson (JObj [
               ("error", JStr "Not Found");
               ("message", JStr "Cannot POST /submit");
               ("availableEndpoints",
                JArr [JStr "/"; JStr "/health"; JStr "/okok";
                      JStr "/api/config"; JStr "/api/test"]) ]) |},
        [ Log [LStr "[2026-01-01T00:00:00.000Z] POST /submit - Origin: no-origin"];
          Log [LStr "❌ 404 Not Found:"; LStr "POST"; LStr "/submit"] ]).
Proof.
  split; [|reflexivity].
  unfold appLayers. rewrite !elem_of_cons. auto 12.
Qed.

(** A GET request whose path cannot be decoded is answered by the error
    handler, with the status of the decoding error. *)
Example get_malformed_path :
  fst (app (worldWith ∅)
         {| method := "GET"; path := "/%"; origin := None; validators := Unconditional;
            path_fault := Some (mkError "URIError" "Failed to decode param '/%'"
                                  "URIError: Failed to decode param '/%'"
                                  (Some status400));
            body_fault := None |})
  = Handled LErrorHandler
      {| code := 400;
         payload := BJson (JObj [
           ("error", JStr "Internal Server Error");
           ("message", JStr "Something went wrong");
           ("timestamp", JStr "2026-01-01T00:00:00.000Z") ]) |}.
Proof. reflexivity. Qed.

(** A request with a range outside the entry document is answered 500
    'Server Error' although the document can be read, and a fresh conditional
    request is answered 304 without a body. *)
Example get_entry_conditional :
  fst (app (worldWith ∅)
         {| method := "GET"; path := "/dashboard"; origin := None;
            validators := RangeUnsatisfiable; path_fault := None;
            body_fault := None |})
  = Handled LSpa {| code := 500; payload := BText "Server Error" |}
  /\ fst (app (worldWith ∅)
            {| method := "GET"; path := "/dashboard"; origin := None;
               validators := CacheFresh; path_fault := None;
               body_fault := None |})
     = Handled LSpa {| code := 304; payload := BEmpty |}.
Proof. split; reflexivity. Qed.

(** C8, as amended: a GET request without conditional or range headers that
    the CORS policy allows, with a path that can be decoded and a body the
    parsers accept, to a path that no registered route and no static asset
    matches, is answered by the SPA fallback: with the entry document and
    status 200 when the document can be read, and otherwise with status 500
    and the text 'Server Error', the failure being logged; in both cases the
    fallback answers itself and passes no error on, and what it answers is
    what is sent. *)
Theorem spaFallback_serves_entry (w : World) (req : Request) :
  method req = "GET" ->
  validators req = Unconditional ->
  fst (corsOrigin (env w) (origin req)) = Allow ->
  path_fault req = None ->
  body_fault req = None ->
  registeredRoute (path req) = false ->
  build w (path req) = StaticMiss ->
  (forall content, index_html w = FileOk content ->
     fst (app w req) = Handled LSpa {| code := 200; payload := BFile content |}
     /\ delivered (fst (app w req)) req
        = Some {| code := 200; payload := BFile content |})
  /\ (forall err, index_html w = FileErr err ->
        fst (app w req)
        = Handled LSpa {| code := 500; payload := BText "Server Error" |}
        /\ delivered (fst (app w req)) req
           = Some {| code := 500; payload := BText "Server Error" |}
        /\ LogError [LStr "Error sending index.html:"; LErr err] ∈ snd (app w req)).
Proof.
  intros Hm Hv Hc Hp Hb Hr Hs.
  assert (Hget : isGetOrHead (method req) = true) by now rewrite Hm.
  unfold app, appLayers.
  change [LCors; LBodyParsers; LLogger; LRoot; LHealth; LOkok; LConfig; LTest;
          LStatic; LSpa; LNotFound; LErrorHandler]
    with ([LCors; LBodyParsers; LLogger; LRoot; LHealth; LOkok; LConfig; LTest;
           LStatic] ++ [LSpa; LNotFound; LErrorHandler])%list.
  rewrite (unmatched_prefix w req Hget Hc Hb Hr Hs).
  simpl dispatch. rewrite (unmatched_spa w req Hget Hp).
  unfold spaFallback, sendFile. rewrite Hv. split.
  - intros content ->. simpl. rewrite Hm. split; reflexivity.
  - intros err ->. simpl. unfold resSend, reqFresh. rewrite Hv, Hm. simpl.
    repeat split. apply elem_of_cons. right. apply elem_of_cons. now left.
Qed.

Lemma spaFallback_serves_entry_witness :
  delivered (fst (app (worldWith ∅) (plainRequest "GET" "/dashboard")))
    (plainRequest "GET" "/dashboard")
  = Some {| code := 200; payload := BFile "<!doctype html>" |}
  /\ delivered (fst (app (worldWithoutEntry ∅) (plainRequest "GET" "/dashboard")))
       (plainRequest "GET" "/dashboard")
     = Some {| code := 500; payload := BText "Server Error" |}.
Proof.
  split.
  - apply (proj1 (spaFallback_serves_entry (worldWith ∅)
                    (plainRequest "GET" "/dashboard")
                    eq_refl eq_refl eq_refl eq_refl eq_refl eq_refl eq_refl)
             _ eq_refl).
  - apply (proj2 (spaFallback_serves_entry (worldWithoutEntry ∅)
                    (plainRequest "GET" "/dashboard")
                    eq_refl eq_refl eq_refl eq_refl eq_refl eq_refl eq_refl)
             _ eq_refl).
Defined.

(** A POST request to a path that no route and no static asset matches is
    not answered with the entry document, readable though it is, but with
    404. *)
Lemma post_unmatched_not_entry :
  registeredRoute "/dashboard" = false
  /\ build (worldWith ∅) "/dashboard" = StaticMiss
  /\ index_html (worldWith ∅) = FileOk "<!doctype html>"
  /\ responseOf (fst (app (worldWith ∅) (plainRequest "POST" "/dashboard")))
     = Some (fst (notFoundHandler (worldWith ∅)
                    (plainRequest "POST" "/dashboard")))
  /\ code (fst (notFoundHandler (worldWith ∅)
                  (plainRequest "POST" "/dashboard"))) = 404%Z.
Proof. repeat split. Qed.

(** ** The shutdown procedure *)

Import Lifecycle.

(** *** Callbacks, the close event and the timers *)

Lemma runCallback_dead (p : Proc) (cb : callback) (x : Z * N) :
  exited p = Some x -> runCallback p cb = p.
Proof. intros H. unfold runCallback. now rewrite H. Qed.

Lemma run_callbacks_dead (l : list callback) (p : Proc) (x : Z * N) :
  exited p = Some x -> fold_left runCallback l p = p.
Proof.
  intros H. induction l as [|c l IH]; simpl; [reflexivity|].
  now rewrite (runCallback_dead p c x H).
Qed.

Lemma runCallback_live (p : Proc) (cb : callback) :
  exited p = None ->
  observed (runCallback p cb)
  = (clock p, listening p, connections p, Some (callbackCode cb, clock p)).
Proof.
  intros H. unfold runCallback. rewrite H.
  destruct cb; unfold process_exit; simpl; rewrite H; reflexivity.
Qed.

Lemma observed_exited (p : Proc) (c : N) (l : bool) (n : nat) (x : option (Z * N)) :
  observed p = (c, l, n, x) -> exited p = x.
Proof. unfold observed. congruence. Qed.

Lemma run_callbacks_live (p : Proc) (c : callback) (l : list callback) :
  exited p = None ->
  observed (fold_left runCallback (c :: l) p)
  = (clock p, listening p, connections p, Some (callbackCode c, clock p)).
Proof.
  intros H. simpl. pose proof (runCallback_live p c H) as Hc.
  now rewrite (run_callbacks_dead l _ _ (observed_exited _ _ _ _ _ Hc)).
Qed.

Lemma emitClose_waits (p : Proc) :
  listening p = true \/ connections p <> 0%nat -> emitClose p = p.
Proof.
  intros [H|H]; unfold emitClose.
  - now rewrite H.
  - apply Nat.eqb_neq in H. rewrite H. now rewrite orb_true_r.
Qed.

Lemma emitClose_fires (p : Proc) (c : callback) (l : list callback) :
  listening p = false -> connections p = 0%nat -> exited p = None ->
  closeListeners p = c :: l ->
  observed (emitClose p) = (clock p, false, 0%nat, Some (callbackCode c, clock p)).
Proof.
  intros Hl Hc He Hls. unfold emitClose. rewrite Hl, Hc, Hls. cbn [orb negb Nat.eqb].
  rewrite run_callbacks_live by exact He. reflexivity.
Qed.

Lemma filter_none {A} (f : A -> bool) (l : list A) :
  existsb f l = false ->
  List.filter f l = [] /\ List.filter (fun x => negb (f x)) l = l.
Proof.
  induction l as [|x l IH]; simpl; [auto|].
  intros H. apply orb_false_iff in H as [Hx Hl]. rewrite Hx. simpl.
  destruct (IH Hl) as [-> ->]. auto.
Qed.

Lemma filter_some {A} (f : A -> bool) (P : A -> Prop) (l : list A) :
  existsb f l = true -> Forall P l ->
  exists x rest, List.filter f l = x :: rest /\ P x.
Proof.
  induction l as [|x l IH]; simpl; [discriminate|].
  intros H HP. apply Forall_cons in HP as [Hx HP].
  destruct (f x) eqn:Hfx; [eauto|]. simpl in H. apply IH; assumption.
Qed.

Lemma fireTimers_idle (p : Proc) :
  existsb (due (clock p)) (timers p) = false -> fireTimers p = p.
Proof.
  intros H. unfold fireTimers. destruct (filter_none _ _ H) as [-> ->].
  now destruct p.
Qed.

Lemma fireTimers_fires (p : Proc) :
  exited p = None ->
  existsb (due (clock p)) (timers p) = true ->
  Forall isForceTimer (timers p) ->
  observed (fireTimers p) = (clock p, listening p, connections p, Some (1%Z, clock p)).
Proof.
  intros He Hd Hf. unfold fireTimers.
  destruct (filter_some _ _ _ Hd Hf) as (x & rest & -> & Hx).
  simpl map. rewrite run_callbacks_live by exact He. rewrite Hx. reflexivity.
Qed.

(** *** What a signal and a rejection leave behind *)

Lemma onUncaughtException_observed (e : Error) (p : Proc) :
  exited p = None ->
  observed (onUncaughtException e p)
  = (clock p, listening p, connections p, Some (1%Z, clock p)).
Proof.
  intros H. unfold onUncaughtException, process_exit. simpl. rewrite H. reflexivity.
Qed.

(** The close event of a process that does not listen: either connections
    remain and nothing happens, or the first listener ends the process. *)
Lemma emitClose_cases (p : Proc) (c : callback) (l : list callback) :
  listening p = false -> exited p = None -> closeListeners p = c :: l ->
  (connections p <> 0%nat /\ emitClose p = p)
  \/ (connections p = 0%nat
      /\ observed (emitClose p)
         = (clock p, false, 0%nat, Some (callbackCode c, clock p))).
Proof.
  intros Hl He Hls. destruct (decide (connections p = 0%nat)) as [H0|H0].
  - right. split; [assumption|]. now apply (emitClose_fires p c l).
  - left. split; [assumption|]. apply emitClose_waits. now right.
Qed.

(** A live process after the close event or the timers is the process
    before. *)
Lemma emitClose_live (p : Proc) :
  exited p = None -> exited (emitClose p) = None -> emitClose p = p.
Proof.
  intros He Hafter. unfold emitClose in *.
  destruct (listening p || negb (connections p =? 0)%nat); [reflexivity|].
  destruct (closeListeners p) as [|c l] eqn:Hls.
  - simpl. destruct p; simpl in *; now subst.
  - match type of Hafter with
    | exited (fold_left _ _ ?r) = _ =>
        rewrite (observed_exited _ _ _ _ _ (run_callbacks_live r c l He)) in Hafter
    end.
    discriminate.
Qed.

Lemma fireTimers_live (p : Proc) :
  exited p = None -> exited (fireTimers p) = None -> fireTimers p = p.
Proof.
  intros He Hafter. destruct (existsb (due (clock p)) (timers p)) eqn:Hd.
  - destruct (filter_some _ (fun _ => True) _ Hd) as (x & rest & Hf & _).
    { apply Forall_forall. auto. }
    unfold fireTimers in Hafter. rewrite Hf in Hafter. simpl map in Hafter.
    match type of Hafter with
    | exited (fold_left _ _ ?r) = _ =>
        rewrite (observed_exited _ _ _ _ _ (run_callbacks_live r _ _ He)) in Hafter
    end.
    discriminate.
  - now apply fireTimers_idle.
Qed.

(** *** Invariants of a run *)

Lemma timersArmed_turn (p : Proc) (ev : event) :
  timersArmed p -> timersArmed (turn p ev).
Proof.
  intros Ht Hlive. unfold turn in *. destruct (exited p) eqn:He; [congruence|].
  specialize (Ht He).
  destruct ev as [s|e|e| | |ms].
  - rewrite emitClose_live by (assumption || exact He). simpl.
    apply Forall_app. split; [assumption|]. repeat constructor. simpl. lia.
  - rewrite emitClose_live by (assumption || exact He). exact Ht.
  - rewrite (observed_exited _ _ _ _ _ (onUncaughtException_observed e p He)) in Hlive.
    discriminate.
  - destruct (listening p); exact Ht.
  - rewrite emitClose_live by (assumption || exact He). exact Ht.
  - rewrite fireTimers_live by (assumption || exact He). simpl.
    eapply Forall_impl; [exact Ht|]. simpl. intros x [H1 H2]. split; [lia|assumption].
Qed.

Lemma timersArmed_run (evs : list event) (p : Proc) :
  timersArmed p -> timersArmed (run p evs).
Proof.
  revert p. induction evs as [|ev evs IH]; intros p H; [exact H|].
  apply IH, timersArmed_turn, H.
Qed.

Lemma timersArmed_started (t : N) (n : nat) : timersArmed (started t n).
Proof. intros _. constructor. Qed.

Lemma app_singleton_cons {A} (l : list A) (x : A) :
  exists y rest, (l ++ [x])%list = y :: rest.
Proof. destruct l as [|y l]; simpl; eauto. Qed.

Lemma draining_turn (p : Proc) (ev : event) :
  draining p -> draining (turn p ev).
Proof.
  intros Hd Hlive. unfold turn in *. destruct (exited p) eqn:He; [congruence|].
  destruct (Hd He) as (Hl & Hc & Hls & Hts).
  destruct (closeListeners p) as [|c l] eqn:Hcl; [congruence|].
  destruct ev as [s|e|e| | |ms].
  - rewrite emitClose_live by (assumption || exact He). simpl.
    rewrite Hcl. repeat split; try assumption; try discriminate.
    destruct (timers p); discriminate.
  - rewrite emitClose_live by (assumption || exact He). simpl.
    rewrite Hcl. repeat split; try assumption; discriminate.
  - rewrite (observed_exited _ _ _ _ _ (onUncaughtException_observed e p He)) in Hlive.
    discriminate.
  - rewrite Hl. rewrite Hcl. repeat split; try assumption; discriminate.
  - destruct (emitClose_cases (setConnections (pred (connections p)) p) c l)
      as [[Hn ->]|[_ Hobs]]; try assumption.
    + simpl. rewrite Hcl. repeat split; try assumption; discriminate.
    + rewrite (observed_exited _ _ _ _ _ Hobs) in Hlive. discriminate.
  - rewrite fireTimers_live by (assumption || exact He). simpl.
    rewrite Hcl. repeat split; try assumption; discriminate.
Qed.

Lemma draining_run (evs : list event) (p : Proc) :
  draining p -> draining (run p evs).
Proof.
  revert p. induction evs as [|ev evs IH]; intros p H; [exact H|].
  apply IH, draining_turn, H.
Qed.

(** After a termination signal the process drains. *)
Lemma draining_signal (p : Proc) (s : signal) : draining (turn p (Signal s)).
Proof.
  intros Hlive. unfold turn in *. destruct (exited p) eqn:He; [congruence|].
  destruct (app_singleton_cons (closeListeners p) OnServerClosed) as (c & l & Hcl).
  destruct (emitClose_cases (gracefulShutdown s p) c l)
    as [[Hn ->]|[_ Hobs]]; try (assumption || reflexivity).
  - simpl. simpl in Hn. repeat split; try assumption.
    + rewrite Hcl. discriminate.
    + destruct (timers p); discriminate.
  - rewrite (observed_exited _ _ _ _ _ Hobs) in Hlive. discriminate.
Qed.

(** *** A second signal changes nothing that is observed *)

Lemma alike_dead (p q : Proc) :
  observed p = observed q -> exited q <> None -> alike p q.
Proof. intros Ho Hq. split; [exact Ho|]. intros H. contradiction. Qed.

Lemma observed_eq (p q : Proc) :
  observed p = observed q ->
  clock p = clock q /\ listening p = listening q
  /\ connections p = connections q /\ exited p = exited q.
Proof. unfold observed. intros H. injection H. auto. Qed.

Lemma due_appended (ts : list (N * callback)) (now t : N) (cb : callback) :
  ts <> [] ->
  Forall (fun x => (fst x <= now + FORCE_TIMEOUT)%N /\ isForceTimer x) ts ->
  existsb (due t) (ts ++ [((now + FORCE_TIMEOUT)%N, cb)]) = existsb (due t) ts.
Proof.
  intros Hne Hall. rewrite existsb_app. simpl. rewrite orb_false_r.
  unfold due at 2. simpl.
  destruct (N.leb_spec (now + FORCE_TIMEOUT) t) as [Hle|Hlt];
    [|now rewrite orb_false_r].
  rewrite orb_true_r. destruct ts as [|x ts]; [congruence|].
  apply Forall_cons in Hall as [[Hx _] _]. simpl.
  unfold due at 1. destruct (N.leb_spec (fst x) t); [reflexivity|lia].
Qed.

Lemma alike_second_signal (p : Proc) (s : signal) :
  timersArmed p -> draining p -> alike (turn p (Signal s)) p.
Proof.
  intros Ht Hd. unfold turn. destruct (exited p) eqn:He.
  { apply alike_dead; [reflexivity|congruence]. }
  specialize (Ht He). destruct (Hd He) as (Hl & Hc & Hls & Hts).
  rewrite emitClose_waits by (right; exact Hc).
  split.
  - unfold observed. simpl. now rewrite Hl.
  - intros _. simpl. repeat split; try assumption.
    + destruct (closeListeners p); [congruence|reflexivity].
    + intros t. now apply due_appended.
    + apply Forall_app. split; [|repeat constructor].
      eapply Forall_impl; [exact Ht|]. simpl. tauto.
    + eapply Forall_impl; [exact Ht|]. simpl. tauto.
Qed.

Lemma alike_turn (p q : Proc) (ev : event) :
  alike p q -> alike (turn p ev) (turn q ev).
Proof.
  intros [Ho Hlive]. destruct (observed_eq _ _ Ho) as (Hclk & Hlst & Hcon & Hex).
  unfold turn. rewrite Hex. destruct (exited q) eqn:Heq.
  { apply alike_dead; [exact Ho|congruence]. }
  destruct (Hlive eq_refl) as (Hl & Hne & Hhd & Hdue & Hfp & Hfq).
  assert (Hlp : listening p = false) by congruence.
  destruct (closeListeners q) as [|c lq] eqn:Hq; [congruence|].
  destruct (closeListeners p) as [|c' lp] eqn:Hp; [discriminate|].
  simpl in Hhd. injection Hhd as ->.
  destruct ev as [s|e|e| | |ms].
  - destruct (emitClose_cases (gracefulShutdown s p) c (lp ++ [OnServerClosed]))
      as [[Hn ->]|[H0 Hobs]]; try (assumption || reflexivity || (simpl; now rewrite Hp)).
    + rewrite emitClose_waits by (right; simpl; simpl in Hn; congruence).
      split.
      * unfold observed. simpl. congruence.
      * intros _. simpl. rewrite Hp, Hq, Hclk. repeat split; try discriminate.
        -- intros t. rewrite !existsb_app, Hdue. reflexivity.
        -- apply Forall_app. split; [assumption|repeat constructor].
        -- apply Forall_app. split; [assumption|repeat constructor].
    + destruct (emitClose_cases (gracefulShutdown s q) c (lq ++ [OnServerClosed]))
        as [[Hn _]|[_ Hobs']];
        try (assumption || reflexivity || (simpl; now rewrite Hq)).
      { simpl in Hn, H0. congruence. }
      apply alike_dead.
      * rewrite Hobs, Hobs'. simpl. now rewrite Hclk.
      * rewrite (observed_exited _ _ _ _ _ Hobs'). discriminate.
  - destruct (emitClose_cases (onUnhandledRejection e p) c (lp ++ [OnRejectionClosed]))
      as [[Hn ->]|[H0 Hobs]]; try (assumption || reflexivity || (simpl; now rewrite Hp)).
    + rewrite emitClose_waits by (right; simpl; simpl in Hn; congruence).
      split.
      * unfold observed. simpl. congruence.
      * intros _. simpl. rewrite Hp, Hq. repeat split; try discriminate; assumption.
    + destruct (emitClose_cases (onUnhandledRejection e q) c (lq ++ [OnRejectionClosed]))
        as [[Hn _]|[_ Hobs']];
        try (assumption || reflexivity || (simpl; now rewrite Hq)).
      { simpl in Hn, H0. congruence. }
      apply alike_dead.
      * rewrite Hobs, Hobs'. simpl. now rewrite Hclk.
      * rewrite (observed_exited _ _ _ _ _ Hobs'). discriminate.
  - assert (Hep : exited p = None) by congruence.
    apply alike_dead.
    + rewrite !onUncaughtException_observed by assumption. congruence.
    + rewrite (observed_exited _ _ _ _ _ (onUncaughtException_observed e q Heq)).
      discriminate.
  - rewrite Hl, Hlp. split; [exact Ho|]. intros _.
    rewrite Hp, Hq. repeat split; try discriminate; assumption.
  - destruct (emitClose_cases (setConnections (pred (connections p)) p) c lp)
      as [[Hn ->]|[H0 Hobs]]; try (assumption || congruence).
    + rewrite emitClose_waits by (right; simpl; simpl in Hn; congruence).
      split.
      * unfold observed. simpl. congruence.
      * intros _. simpl. rewrite Hp, Hq. repeat split; try discriminate; assumption.
    + destruct (emitClose_cases (setConnections (pred (connections q)) q) c lq)
        as [[Hn _]|[_ Hobs']]; try assumption.
      { simpl in Hn, H0. congruence. }
      apply alike_dead.
      * rewrite Hobs, Hobs'. simpl. now rewrite Hclk.
      * rewrite (observed_exited _ _ _ _ _ Hobs'). discriminate.
  - assert (Hep : exited p = None) by congruence.
    destruct (existsb (due (clock q + ms)) (timers q)) eqn:Hd.
    + apply alike_dead.
      * rewrite !fireTimers_fires; simpl; rewrite ?Hclk, ?Hdue; try assumption.
        congruence.
      * rewrite (observed_exited _ _ _ _ _
                   (fireTimers_fires (advance ms q) Heq Hd Hfq)).
        discriminate.
    + rewrite !fireTimers_idle by (simpl; rewrite ?Hclk, ?Hdue; assumption).
      split.
      * unfold observed. simpl. congruence.
      * intros _. simpl. rewrite Hp, Hq. repeat split; try discriminate; assumption.
Qed.

Lemma alike_run (evs : list event) (p q : Proc) :
  alike p q -> alike (run p evs) (run q evs).
Proof.
  revert p q. induction evs as [|ev evs IH]; intros p q H; [exact H|].
  apply IH, alike_turn, H.
Qed.

(** *** The forced-shutdown callback runs at most once *)

Lemma forcedRuns_console (line : log_line) (p : Proc) :
  forcedRuns (console line p)
  = (forcedRuns p + if isForcedLine line then 1 else 0)%nat.
Proof.
  unfold forcedRuns. simpl. rewrite List.filter_app, length_app. simpl.
  now destruct (isForcedLine line).
Qed.

Lemma forcedOnce_ext (p q : Proc) :
  out q = out p -> exited q = exited p -> forcedOnce p -> forcedOnce q.
Proof. unfold forcedOnce, forcedRuns. intros -> ->. auto. Qed.

Lemma forcedOnce_exit (c : Z) (p : Proc) :
  (forcedRuns p <= 1)%nat -> forcedOnce (process_exit c p).
Proof.
  intros H. unfold process_exit. destruct (exited p) eqn:He.
  - split; [exact H|congruence].
  - split; [exact H|discriminate].
Qed.

Lemma forcedOnce_runCallback (p : Proc) (cb : callback) :
  forcedOnce p -> forcedOnce (runCallback p cb).
Proof.
  intros H. unfold runCallback. destruct (exited p) eqn:He; [exact H|].
  destruct H as [_ H0]. specialize (H0 He).
  destruct cb; apply forcedOnce_exit; rewrite ?forcedRuns_console, H0; simpl; lia.
Qed.

Lemma forcedOnce_callbacks (l : list callback) (p : Proc) :
  forcedOnce p -> forcedOnce (fold_left runCallback l p).
Proof.
  revert p. induction l as [|c l IH]; intros p H; [exact H|].
  apply IH, forcedOnce_runCallback, H.
Qed.

Lemma forcedOnce_emitClose (p : Proc) : forcedOnce p -> forcedOnce (emitClose p).
Proof.
  intros H. unfold emitClose.
  destruct (listening p || negb (connections p =? 0)%nat); [exact H|].
  apply forcedOnce_callbacks. revert H. now apply forcedOnce_ext.
Qed.

Lemma forcedOnce_turn (p : Proc) (ev : event) :
  forcedOnce p -> forcedOnce (turn p ev).
Proof.
  intros H. unfold turn. destruct (exited p) eqn:He; [exact H|].
  pose proof (proj2 H He) as H0.
  destruct ev as [s|e|e| | |ms].
  - apply forcedOnce_emitClose. split; [|intros _];
      unfold gracefulShutdown, forcedRuns; simpl;
      rewrite List.filter_app, length_app; simpl;
      fold (forcedRuns p); lia.
  - apply forcedOnce_emitClose. unfold onUnhandledRejection.
    apply (forcedOnce_ext
             (console (LogError [LStr (name e); LStr (message e)])
                (console (LogError [LStr "💥 UNHANDLED REJECTION! Shutting down..."]) p)));
      try reflexivity.
    split; [|intros _]; rewrite !forcedRuns_console, H0; simpl; lia.
  - unfold onUncaughtException. apply forcedOnce_exit.
    rewrite !forcedRuns_console, H0. simpl.
    match goal with |- context [if ?b then _ else _] => destruct b end; lia.
  - destruct (listening p); [|exact H]. revert H. now apply forcedOnce_ext.
  - apply forcedOnce_emitClose. revert H. now apply forcedOnce_ext.
  - unfold fireTimers. apply forcedOnce_callbacks. revert H. now apply forcedOnce_ext.
Qed.

Lemma forcedOnce_run (evs : list event) (p : Proc) :
  forcedOnce p -> forcedOnce (run p evs).
Proof.
  revert p. induction evs as [|ev evs IH]; intros p H; [exact H|].
  apply IH, forcedOnce_turn, H.
Qed.

Lemma forcedOnce_started (t : N) (n : nat) : forcedOnce (started t n).
Proof. split; [unfold forcedRuns; simpl; lia | reflexivity]. Qed.

Lemma run_app (p : Proc) (evs evs' : list event) :
  run p (evs ++ evs') = run (run p evs) evs'.
Proof. apply fold_left_app. Qed.

(** C6: a second termination signal delivered after a first one, at any
    later point of any run, changes nothing that is observed of the
    process: with or without it the process exits with the same code at
    the same time, or lives on with the same server and connections; the
    second signal does not end the process by itself, and in every run the
    forced-shutdown callback runs at most once. *)
Theorem second_signal_idempotent (t : N) (n : nat)
    (before between after : list event) (a b : signal) :
  observed (run (started t n)
              (before ++ Signal a :: between ++ Signal b :: after))
  = observed (run (started t n) (before ++ Signal a :: between ++ after))
  /\ (forcedRuns (run (started t n)
                    (before ++ Signal a :: between ++ Signal b :: after))
      <= 1)%nat.
Proof.
  split.
  - rewrite !run_app. simpl. rewrite !run_app. simpl.
    apply alike_run, alike_second_signal.
    + apply timersArmed_run, timersArmed_turn, timersArmed_run, timersArmed_started.
    + apply draining_run, draining_signal.
  - apply forcedOnce_run, forcedOnce_started.
Qed.

(** Two signals and a stalled connection: the process is forced down ten
    seconds after the first signal, the callback having run once, although
    two timers were armed. *)
Example two_signals_forced :
  length (timers (run (started 0 1) [Signal SIGTERM; Elapse 4000; Signal SIGINT]))
  = 2%nat
  /\ exited (run (started 0 1)
               [Signal SIGTERM; Elapse 4000; Signal SIGINT; Elapse 6000])
     = Some (1%Z, 10000%N)
  /\ forcedRuns (run (started 0 1)
                   [Signal SIGTERM; Elapse 4000; Signal SIGINT; Elapse 6000;
                    Elapse 4000])
     = 1%nat.
Proof. repeat split. Qed.

(** Two signals and a connection that ends in time: a clean exit. *)
Example two_signals_clean :
  exited (run (started 0 1)
            [Signal SIGTERM; Signal SIGINT; Elapse 2500; Disconnect; Elapse 9000])
  = Some (0%Z, 2500%N).
Proof. reflexivity. Qed.


(** * Further properties *)

(** ** The CORS policy as a whole *)

Lemma corsOrigin_cases (e : gmap string string) (o : string) :
  o <> "" ->
  corsOrigin e (Some o)
  = if bool_decide (o ∈ allowedOrigins e) then (Allow, [])
    else if isDevelopment e then (Allow, [])
    else (Reject (new_Error "Not allowed by CORS"),
          [Log [LStr "Blocked origin:"; LStr o]]).
Proof.
  intros Ho. unfold corsOrigin. simpl. apply String.eqb_neq in Ho as ->. simpl.
  destruct (negb (Z.eqb (indexOf (allowedOrigins e) o) (-1))) eqn:Hidx.
  - apply indexOf_found in Hidx. now rewrite bool_decide_eq_true_2.
  - rewrite bool_decide_eq_false_2; [reflexivity|].
    intros Hin. apply indexOf_found in Hin. congruence.
Qed.

(** X1: the evaluator allows a request exactly when the origin header is missing
    or empty, or names one of the allowed origins, or NODE_ENV is
    'development'; it logs a line exactly when it rejects. *)
Theorem corsOrigin_allows_iff (e : gmap string string) (origin : option string) :
  (fst (corsOrigin e origin) = Allow
   <-> truthy origin = false
       \/ (exists o, origin = Some o /\ o ∈ allowedOrigins e)
       \/ e !! "NODE_ENV" = Some "development")
  /\ (snd (corsOrigin e origin) = [] <-> fst (corsOrigin e origin) = Allow).
Proof.
  destruct origin as [o|]; [|split; split; auto].
  destruct (String.eqb_spec o "") as [->|Ho].
  { split; split; auto. }
  rewrite (corsOrigin_cases e o Ho).
  assert (Ht : truthy (Some o) = true).
  { simpl. now apply String.eqb_neq in Ho as ->. }
  destruct (bool_decide (o ∈ allowedOrigins e)) eqn:Hin.
  { apply bool_decide_eq_true in Hin. split; split; eauto. }
  apply bool_decide_eq_false in Hin.
  destruct (isDevelopment e) eqn:Hdev.
  { apply isDevelopment_true in Hdev. split; split; auto. }
  apply isDevelopment_false in Hdev. cbn [fst snd]. split; split; try discriminate.
  intros [H|[(o' & Ho' & Hin')|H]]; [congruence| |congruence].
  injection Ho' as <-. contradiction.
Qed.

(** X2: the three fixed origins are allowed in every environment, whatever
    FRONTEND_URL and NODE_ENV are. *)
Theorem fixed_origins_always_allowed (e : gmap string string) (o : string) :
  o ∈ [ "http://localhost:3000"; "http://localhost:5000";
        "https://reaxapp.vercel.app/" ] ->
  corsOrigin e (Some o) = (Allow, []).
Proof.
  intros Hin.
  assert (Ho : o <> "").
  { repeat (apply elem_of_cons in Hin as [-> | Hin]; [discriminate|]).
    now apply elem_of_nil in Hin. }
  rewrite (corsOrigin_cases e o Ho), bool_decide_eq_true_2; [reflexivity|].
  apply allowedOrigins_elem.
  repeat (apply elem_of_cons in Hin as [-> | Hin]; [auto|]).
  now apply elem_of_nil in Hin.
Qed.

Lemma fixed_origins_always_allowed_witness :
  corsOrigin productionEnv (Some "https://reaxapp.vercel.app/") = (Allow, []).
Proof.
  apply (fixed_origins_always_allowed productionEnv "https://reaxapp.vercel.app/").
  apply elem_of_cons. right. apply elem_of_cons. right. apply elem_of_cons. now left.
Defined.

(** X3: origins are compared as strings: the production origin written without
    its trailing slash is rejected outside development unless FRONTEND_URL
    names it. *)
Theorem production_origin_needs_slash (e : gmap string string) :
  e !! "NODE_ENV" <> Some "development" ->
  e !! "FRONTEND_URL" <> Some "https://reaxapp.vercel.app" ->
  corsOrigin e (Some "https://reaxapp.vercel.app")
  = (Reject (new_Error "Not allowed by CORS"),
     [Log [LStr "Blocked origin:"; LStr "https://reaxapp.vercel.app"]]).
Proof.
  intros Hdev Hfe. rewrite corsOrigin_cases by discriminate.
  rewrite bool_decide_eq_false_2.
  - apply isDevelopment_false in Hdev as ->. reflexivity.
  - rewrite allowedOrigins_elem. intros [H|[H|[[H _]|H]]]; congruence.
Qed.

Lemma production_origin_needs_slash_witness :
  corsOrigin productionEnv (Some "https://reaxapp.vercel.app")
  = (Reject (new_Error "Not allowed by CORS"),
     [Log [LStr "Blocked origin:"; LStr "https://reaxapp.vercel.app"]]).
Proof.
  apply (production_origin_needs_slash productionEnv); discriminate.
Defined.

(** ** The routing chain as a whole *)

(** A chain that ends with the 404 handler and the error handler answers
    every request, with or without a pending error. *)
Lemma dispatch_answers (w : World) (req : Request) (before : list layer)
    (pending : option Error) :
  exists l r,
    fst (dispatch w (before ++ [LNotFound; LErrorHandler]) pending req)
    = Handled l r.
Proof.
  revert pending. induction before as [|l rest IH]; intros [e|]; simpl.
  - destruct (errorHandler w e req). eauto.
  - unfold runLayer. simpl. eauto.
  - destruct (isErrorHandler l); [|apply IH].
    destruct (errorHandler w e req). eauto.
  - destruct (isErrorHandler l); [apply IH|].
    destruct (runLayer w l req) as [[r| |e] lg].
    + eauto.
    + destruct (IH None) as (l' & r' & H).
      destruct (dispatch w (rest ++ [LNotFound; LErrorHandler]) None req).
      simpl in *. eauto.
    + destruct (IH (Some e)) as (l' & r' & H).
      destruct (dispatch w (rest ++ [LNotFound; LErrorHandler]) (Some e) req).
      simpl in *. eauto.
Qed.

(** X4: every request is answered by a layer of the application: none is left
    to the default handlers of Express, whatever the request, the files and
    the environment. *)
Theorem app_always_answers (w : World) (req : Request) :
  exists l r, fst (app w req) = Handled l r /\ l ∈ appLayers.
Proof.
  destruct (dispatch_answers w req
              [LCors; LBodyParsers; LLogger; LRoot; LHealth; LOkok; LConfig;
               LTest; LStatic; LSpa] None) as (l & r & H).
  exists l, r. split; [exact H|].
  assert (Hin : forall layers pending l' r',
             fst (dispatch w layers pending req) = Handled l' r' -> l' ∈ layers).
  { clear. intros layers. induction layers as [|l0 rest IH]; intros pending l' r'; simpl.
    - destruct pending; discriminate.
    - destruct pending as [e|].
      + destruct (isErrorHandler l0).
        * destruct (errorHandler w e req). simpl. intros H. injection H as -> _.
          apply elem_of_cons. now left.
        * intros H. apply elem_of_cons. right. eapply IH, H.
      + destruct (isErrorHandler l0).
        * intros H. apply elem_of_cons. right. eapply IH, H.
        * destruct (runLayer w l0 req) as [[r| |e] lg].
          -- simpl. intros H. injection H as -> _. apply elem_of_cons. now left.
          -- specialize (IH None l' r').
             destruct (dispatch w rest None req). simpl in *.
             intros H. apply elem_of_cons. right. auto.
          -- specialize (IH (Some e) l' r').
             destruct (dispatch w rest (Some e) req). simpl in *.
             intros H. apply elem_of_cons. right. auto. }
  eapply Hin. exact H.
Qed.

Lemma cors_passes (w : World) (req : Request) :
  String.eqb (method req) "OPTIONS" = false ->
  fst (corsOrigin (env w) (origin req)) = Allow ->
  runLayer w LCors req = (Next, []).
Proof.
  intros Hm Hc. unfold runLayer, corsLayer.
  destruct (corsOrigin (env w) (origin req)) as [v lg] eqn:E.
  simpl in Hc. subst v. rewrite (corsOrigin_allow_log _ _ _ E). now rewrite Hm.
Qed.

(** X5: a request from an origin the policy rejects is answered by the error
    handler with 500 and the generic message, in every method and on every
    path; the console shows the blocked origin and the error, and neither the
    logging middleware nor any route has run. *)
Theorem app_rejects_blocked_origin (w : World) (req : Request) (o : string) :
  origin req = Some o ->
  o <> "" ->
  o ∉ allowedOrigins (env w) ->
  env w !! "NODE_ENV" <> Some "development" ->
  app w req
  = (Handled LErrorHandler
       {| code := 500;
          payload := BJson (JObj [
            ("error", JStr "Internal Server Error");
            ("message", JStr "Something went wrong");
            ("timestamp", JStr (now w)) ]) |},
     [ Log [LStr "Blocked origin:"; LStr o];
       LogError [LStr "❌ Server Error:"; LStr "Not allowed by CORS"];
       LogError [LStr "Error: Not allowed by CORS"] ]).
Proof.
  intros Ho Hne Hout Hdev. unfold app, appLayers. simpl dispatch.
  unfold runLayer, corsLayer. rewrite Ho, (corsOrigin_cases _ o Hne).
  rewrite bool_decide_eq_false_2 by exact Hout.
  apply isDevelopment_false in Hdev. rewrite Hdev.
  reflexivity.
Qed.

Lemma app_rejects_blocked_origin_witness :
  fst (app (worldWith productionEnv)
         {| method := "GET"; path := "/okok";
            origin := Some "https://evil.example"; validators := Unconditional;
            path_fault := None; body_fault := None |})
  = Handled LErrorHandler
      {| code := 500;
         payload := BJson (JObj [
           ("error", JStr "Internal Server Error");
           ("message", JStr "Something went wrong");
           ("timestamp", JStr "2026-01-01T00:00:00.000Z") ]) |}.
Proof.
  rewrite (app_rejects_blocked_origin (worldWith productionEnv) _
             "https://evil.example").
  - reflexivity.
  - reflexivity.
  - discriminate.
  - rewrite allowedOrigins_elem. vm_compute. intuition discriminate.
  - vm_compute. discriminate.
Defined.

(** X6: a preflight request the policy allows is answered by the CORS layer
    itself, with status 200 and no body, on every path; nothing is logged and
    no route runs. *)
Theorem app_answers_preflight (w : World) (req : Request) :
  method req = "OPTIONS" ->
  fst (corsOrigin (env w) (origin req)) = Allow ->
  app w req = (Handled LCors {| code := 200; payload := BEmpty |}, []).
Proof.
  intros Hm Hc. unfold app, appLayers. simpl dispatch.
  unfold runLayer, corsLayer.
  destruct (corsOrigin (env w) (origin req)) as [v lg] eqn:E.
  simpl in Hc. subst v. rewrite (corsOrigin_allow_log _ _ _ E). now rewrite Hm.
Qed.

Lemma app_answers_preflight_witness :
  app (worldWith productionEnv) (plainRequest "OPTIONS" "/api/config")
  = (Handled LCors {| code := 200; payload := BEmpty |}, []).
Proof.
  apply (app_answers_preflight (worldWith productionEnv)
           (plainRequest "OPTIONS" "/api/config")); reflexivity.
Defined.

(** X7: a request whose body the parsers refuse is answered by the error handler
    with the status of the parser's error, before the logging middleware and
    the routes. *)
Theorem app_rejects_bad_body (w : World) (req : Request) (e : Error) :
  String.eqb (method req) "OPTIONS" = false ->
  fst (corsOrigin (env w) (origin req)) = Allow ->
  body_fault req = Some e ->
  app w req
  = (Handled LErrorHandler (fst (errorHandler w e req)),
     snd (errorHandler w e req)).
Proof.
  intros Hm Hc Hb. unfold app, appLayers. simpl dispatch.
  rewrite (cors_passes w req Hm Hc). unfold runLayer at 1. rewrite Hb.
  reflexivity.
Qed.

Lemma app_rejects_bad_body_witness :
  responseOf
    (fst (app (worldWith productionEnv)
            {| method := "POST"; path := "/api/test"; origin := None; validators := Unconditional;
               path_fault := None;
               body_fault := Some (mkError "SyntaxError" "Unexpected token }"
                                     "SyntaxError: Unexpected token }"
                                     (Some status400)) |}))
  = Some {| code := 400;
            payload := BJson (JObj [
              ("error", JStr "Internal Server Error");
              ("message", JStr "Something went wrong");
              ("timestamp", JStr "2026-01-01T00:00:00.000Z") ]) |}.
Proof.
  rewrite (app_rejects_bad_body (worldWith productionEnv) _
             (mkError "SyntaxError" "Unexpected token }"
                "SyntaxError: Unexpected token }" (Some status400)));
    reflexivity.
Defined.

(** A route registered with [app.get] lets a request of another method
    pass. *)
Lemma route_skips_other_methods (w : World) (req : Request) (l : layer)
    (pattern : string) :
  routePath l = Some pattern ->
  isGetOrHead (method req) = false ->
  path_fault req = None ->
  runLayer w l req = (Next, []).
Proof.
  intros Hl Hm Hp.
  destruct l; try discriminate; unfold runLayer; rewrite Hl;
    destruct (routeMatches pattern (path req)); try reflexivity;
    unfold routeDecodes; destruct (String.eqb pattern "*");
    rewrite ?Hp, Hm; reflexivity.
Qed.

(** X8: the API answers GET and HEAD only: a request of any other method (but
    OPTIONS) that passes the CORS policy and the parsers is answered 404 on
    every path, the paths of the API routes and of static files included. *)
Theorem app_other_methods_not_found (w : World) (req : Request) :
  isGetOrHead (method req) = false ->
  String.eqb (method req) "OPTIONS" = false ->
  fst (corsOrigin (env w) (origin req)) = Allow ->
  path_fault req = None ->
  body_fault req = None ->
  app w req
  = (Handled LNotFound (fst (notFoundHandler w req)),
     (snd (loggerLayer w req) ++ snd (notFoundHandler w req))%list).
Proof.
  intros Hm Ho Hc Hp Hb. unfold app, appLayers. simpl dispatch.
  rewrite (cors_passes w req Ho Hc), (unmatched_body w req Hb).
  rewrite (route_skips_other_methods w req LRoot "/"),
    (route_skips_other_methods w req LHealth "/health"),
    (route_skips_other_methods w req LOkok "/okok"),
    (route_skips_other_methods w req LConfig "/api/config"),
    (route_skips_other_methods w req LTest "/api/test"),
    (route_skips_other_methods w req LSpa "*") by (assumption || reflexivity).
  unfold runLayer, staticLayer. rewrite Hm. reflexivity.
Qed.

Lemma app_other_methods_not_found_witness :
  fst (app (worldWith productionEnv) (plainRequest "POST" "/okok"))
  = Handled LNotFound
      {| code := 404;
         payload := BJson (JObj [
           ("error", JStr "Not Found");
           ("message", JStr "Cannot POST /okok");
           ("availableEndpoints",
            JArr [JStr "/"; JStr "/health"; JStr "/okok";
                  JStr "/api/config"; JStr "/api/test"]) ]) |}.
Proof.
  rewrite (app_other_methods_not_found (worldWith productionEnv)
             (plainRequest "POST" "/okok")); reflexivity.
Defined.

Lemma app_reaches_route_witness :
  fst (app (mkWorld productionEnv "2026-01-01T00:00:00.000Z" 0%Q
              (fun _ => StaticHit "shadow") (FileOk "<!doctype html>"))
         (plainRequest "GET" "/api/config"))
  = Handled LConfig
      (fst (configHandler
              (mkWorld productionEnv "2026-01-01T00:00:00.000Z" 0%Q
                 (fun _ => StaticHit "shadow") (FileOk "<!doctype html>"))
              (plainRequest "GET" "/api/config"))).
Proof.
  apply (app_reaches_route
           (mkWorld productionEnv "2026-01-01T00:00:00.000Z" 0%Q
              (fun _ => StaticHit "shadow") (FileOk "<!doctype html>"))
           (plainRequest "GET" "/api/config") LConfig "/api/config");
    try reflexivity.
  repeat (apply elem_of_cons; first [now left | right]).
Defined.



Lemma dispatch_next (w : World) (req : Request) (l : layer)
    (rest : list layer) (lg : list log_line) :
  isErrorHandler l = false ->
  runLayer w l req = (Next, lg) ->
  dispatch w (l :: rest) None req
  = (fst (dispatch w rest None req),
     (lg ++ snd (dispatch w rest None req))%list).
Proof.
  intros Hl Hrun. simpl. rewrite Hl, Hrun.
  now destruct (dispatch w rest None req).
Qed.

(** X11: every request that gets past the CORS layer and the body parsers is
    logged by the logging middleware before anything else: its line, with
    the method, the path and the origin (or 'no-origin'), is the first of
    the console. *)
Theorem app_logs_request_first (w : World) (req : Request) :
  String.eqb (method req) "OPTIONS" = false ->
  fst (corsOrigin (env w) (origin req)) = Allow ->
  body_fault req = None ->
  exists rest,
    snd (app w req)
    = Log [LStr ("[" ++ now w ++ "] " ++ method req ++ " " ++ path req
                 ++ " - Origin: " ++ or_else (origin req) "no-origin")] :: rest.
Proof.
  intros Ho Hc Hb. unfold app, appLayers.
  rewrite (dispatch_next w req LCors _ [] eq_refl (cors_passes w req Ho Hc)).
  rewrite (dispatch_next w req LBodyParsers _ [] eq_refl (unmatched_body w req Hb)).
  rewrite (dispatch_next w req LLogger _ (snd (loggerLayer w req)) eq_refl eq_refl).
  simpl. eauto.
Qed.

Lemma app_logs_request_first_witness :
  exists rest,
    snd (app (worldWith productionEnv) (plainRequest "GET" "/health"))
    = Log [LStr "[2026-01-01T00:00:00.000Z] GET /health - Origin: no-origin"]
      :: rest.
Proof.
  apply (app_logs_request_first (worldWith productionEnv)
           (plainRequest "GET" "/health")); reflexivity.
Defined.

(** A response of a layer that is not the error handler is what that layer
    answers when it runs. *)
Lemma dispatch_handled_by (w : World) (req : Request) (layers : list layer)
    (pending : option Error) (l : layer) (r : Response) :
  fst (dispatch w layers pending req) = Handled l r ->
  isErrorHandler l = false ->
  exists lg, runLayer w l req = (Respond r, lg).
Proof.
  intros H Hl. revert pending H.
  induction layers as [|l0 rest IH]; intros pending; simpl.
  - destruct pending; discriminate.
  - destruct pending as [e|].
    + destruct (isErrorHandler l0) eqn:Hl0; [|apply IH].
      destruct (errorHandler w e req). simpl. intros H. injection H as -> _.
      congruence.
    + destruct (isErrorHandler l0) eqn:Hl0; [apply IH|].
      destruct (runLayer w l0 req) as [[r'| |e] lg'] eqn:Hrun.
      * simpl. intros H. injection H as -> ->. eauto.
      * specialize (IH None). destruct (dispatch w rest None req). exact IH.
      * specialize (IH (Some e)). destruct (dispatch w rest (Some e) req). exact IH.
Qed.

(** X12: outside development GET /api/test never echoes an origin that is not
    allowed: the [receivedFrom] field of its answer is 'unknown' or one of
    the allowed origins. *)
Theorem test_echoes_allowed_origin (w : World) (req : Request) (r : Response) :
  env w !! "NODE_ENV" <> Some "development" ->
  fst (app w req) = Handled LTest r ->
  bodyField "receivedFrom" r = Some (JStr "unknown")
  \/ exists o, o ∈ allowedOrigins (env w)
               /\ origin req = Some o
               /\ bodyField "receivedFrom" r = Some (JStr o).
Proof.
  intros Hdev H.
  destruct (dispatch_handled_by w req appLayers None LTest r H eq_refl) as [lg Hrun].
  assert (Hr : r = fst (testHandler w req)).
  { unfold runLayer in Hrun. simpl in Hrun.
    destruct (routeMatches "/api/test" (path req)); [|discriminate].
    destruct (isGetOrHead (method req)); [|discriminate]. now injection Hrun as <- _. }
  assert (Hc : fst (corsOrigin (env w) (origin req)) = Allow).
  { unfold app, appLayers in H. simpl in H. unfold runLayer at 1 in H.
    unfold corsLayer in H.
    destruct (corsOrigin (env w) (origin req)) as [[|e] lg0]; [reflexivity|].
    exfalso.
    pose proof (dispatch_pending_answer w
                  [LBodyParsers; LLogger; LRoot; LHealth; LOkok; LConfig; LTest;
                   LStatic; LSpa; LNotFound; LErrorHandler] e req) as Hp.
    simpl in Hp.
    destruct (errorHandler w e req). simpl in *. discriminate. }
  subst r. unfold bodyField. simpl.
  destruct (origin req) as [o|] eqn:Ho; [|now left].
  destruct (String.eqb_spec o "") as [->|Hne]; [now left|].
  right. exists o. rewrite (corsOrigin_cases _ o Hne) in Hc.
  destruct (bool_decide (o ∈ allowedOrigins (env w))) eqn:Hin.
  - apply bool_decide_eq_true in Hin. repeat split; [assumption|].
    simpl. now apply String.eqb_neq in Hne as ->.
  - apply isDevelopment_false in Hdev. rewrite Hdev in Hc. discriminate.
Qed.

Lemma test_echoes_allowed_origin_witness :
  bodyField "receivedFrom"
    (fst (testHandler (worldWith productionEnv)
            {| method := "GET"; path := "/api/test";
               origin := Some "http://localhost:3000"; validators := Unconditional;
               path_fault := None; body_fault := None |}))
  = Some (JStr "unknown")
  \/ exists o, o ∈ allowedOrigins (env (worldWith productionEnv))
               /\ Some "http://localhost:3000" = Some o
               /\ bodyField "receivedFrom"
                    (fst (testHandler (worldWith productionEnv)
                            {| method := "GET"; path := "/api/test";
                               origin := Some "http://localhost:3000"; validators := Unconditional;
                               path_fault := None; body_fault := None |}))
                  = Some (JStr o).
Proof.
  apply (test_echoes_allowed_origin (worldWith productionEnv)
           {| method := "GET"; path := "/api/test";
              origin := Some "http://localhost:3000"; validators := Unconditional;
              path_fault := None; body_fault := None |}).
  - vm_compute. discriminate.
  - reflexivity.
Defined.

(** ** The handlers *)

(** X13: with NODE_ENV unset or empty, GET / and GET /health report the
    environment 'development', while the CORS policy and the error handler
    behave as outside development: origins outside the allowed set are
    rejected and error messages are withheld. *)
Theorem unset_environment_reported_as_development (w : World) (req : Request) :
  env w !! "NODE_ENV" = None \/ env w !! "NODE_ENV" = Some "" ->
  bodyField "environment" (fst (rootHandler w req)) = Some (JStr "development")
  /\ bodyField "environment" (fst (healthHandler w req)) = Some (JStr "development")
  /\ (forall o, o <> "" -> o ∉ allowedOrigins (env w) ->
        fst (corsOrigin (env w) (Some o)) = Reject (new_Error "Not allowed by CORS"))
  /\ (forall err, bodyField "message" (fst (errorHandler w err req))
                  = Some (JStr "Something went wrong")).
Proof.
  intros H.
  assert (Hdev : isDevelopment (env w) = false).
  { unfold isDevelopment. destruct H as [-> | ->]; reflexivity. }
  unfold bodyField, environmentName. simpl. unfold environmentName.
  rewrite (or_else_unset _ _ H). repeat split.
  - intros o Ho Hout. rewrite (corsOrigin_cases _ o Ho), Hdev.
    now rewrite bool_decide_eq_false_2.
  - intros err. now rewrite Hdev.
Qed.

Lemma unset_environment_reported_as_development_witness :
  bodyField "environment"
    (fst (rootHandler (worldWith ∅) (plainRequest "GET" "/")))
  = Some (JStr "development")
  /\ fst (corsOrigin (env (worldWith ∅)) (Some "https://evil.example"))
     = Reject (new_Error "Not allowed by CORS").
Proof.
  destruct (unset_environment_reported_as_development (worldWith ∅)
              (plainRequest "GET" "/")) as (H1 & _ & H3 & _).
  { left. reflexivity. }
  split; [exact H1|]. apply H3.
  - discriminate.
  - rewrite allowedOrigins_elem. vm_compute. intuition discriminate.
Defined.

(** X14: the answer of the error handler never depends on the name or the stack
    of the error, nor on the request, and outside development not on the
    message either: two errors with the same status (and, in development,
    the same message) are answered alike. *)
Theorem errorHandler_withholds_detail (w : World) (e1 e2 : Error)
    (req1 req2 : Request) :
  status e1 = status e2 ->
  (env w !! "NODE_ENV" = Some "development" -> message e1 = message e2) ->
  fst (errorHandler w e1 req1) = fst (errorHandler w e2 req2).
Proof.
  intros Hs Hm. unfold errorHandler, statusNumber. simpl. rewrite Hs.
  destruct (isDevelopment (env w)) eqn:Hdev; [|reflexivity].
  apply isDevelopment_true in Hdev. now rewrite (Hm Hdev).
Qed.

Lemma errorHandler_withholds_detail_witness :
  fst (errorHandler (worldWith productionEnv)
         (mkError "TypeError" "secret" "TypeError: secret at db.js:1" (Some status503))
         (plainRequest "GET" "/okok"))
  = fst (errorHandler (worldWith productionEnv)
           (mkError "Error" "other" "Error: other" (Some status503))
           (plainRequest "POST" "/x")).
Proof.
  apply (errorHandler_withholds_detail (worldWith productionEnv)).
  - reflexivity.
  - vm_compute. discriminate.
Defined.

(** ** The shutdown procedure, further *)

Import Shutdown.

Lemma turn_live (p : Proc) (ev : event) :
  exited p = None ->
  exited (turn p ev) = None ->
  turn p ev
  = match ev with
    | Signal s => gracefulShutdown s p
    | Rejection e => onUnhandledRejection e p
    | Exception e => p
    | Connect => if listening p then setConnections (S (connections p)) p else p
    | Disconnect => setConnections (pred (connections p)) p
    | Elapse ms => advance ms p
    end.
Proof.
  intros He Hafter. unfold turn in *. rewrite He in *.
  destruct ev as [s|e|e| | |ms].
  - now apply emitClose_live.
  - now apply emitClose_live.
  - rewrite (observed_exited _ _ _ _ _ (onUncaughtException_observed e p He)) in Hafter.
    discriminate.
  - reflexivity.
  - now apply emitClose_live.
  - now apply fireTimers_live.
Qed.

(** *** Draining *)

(** Once the server has stopped listening, the process ends with the code of
    the first ['close'] listener when its last connection ends. *)
Lemma drain_exits (k : nat) (p : Proc) (c : callback) (l : list callback) :
  exited p = None -> listening p = false -> closeListeners p = c :: l ->
  connections p = S k ->
  observed (run p (repeat Disconnect (S k)))
  = (clock p, false, 0%nat, Some (callbackCode c, clock p)).
Proof.
  revert p. induction k as [|k IH]; intros p He Hl Hc Hn.
  - simpl. unfold turn. rewrite He.
    rewrite (emitClose_fires (setConnections (pred (connections p)) p) c l);
      try assumption; [reflexivity|]. simpl. now rewrite Hn.
  - change (repeat Disconnect (S (S k)))
      with (Disconnect :: repeat Disconnect (S k)).
    simpl run. fold (run (turn p Disconnect) (repeat Disconnect (S k))).
    assert (Hstep : turn p Disconnect = setConnections (S k) p).
    { unfold turn. rewrite He, Hn. simpl pred.
      apply emitClose_waits. right. simpl. discriminate. }
    rewrite Hstep. now apply (IH (setConnections (S k) p)).
Qed.

Lemma signal_started (t : N) (n : nat) (s : signal) :
  turn (started t (S n)) (Signal s) = gracefulShutdown s (started t (S n)).
Proof.
  unfold turn. simpl exited. cbv iota.
  apply emitClose_waits. right. simpl. discriminate.
Qed.

(** X15: a signal received while [n] connections are open, followed by the end of
    these connections, ends the process with code 0, and does so at once when
    no connection is open. *)
Theorem signal_then_drained_exits_zero (t : N) (n : nat) (s : signal) :
  observed (run (started t n) (Signal s :: repeat Disconnect n))
  = (t, false, 0%nat, Some (0%Z, t)).
Proof.
  destruct n as [|n].
  - reflexivity.
  - change (observed (run (turn (started t (S n)) (Signal s))
                          (repeat Disconnect (S n)))
            = (t, false, 0%nat, Some (0%Z, t))).
    rewrite signal_started.
    now rewrite (drain_exits n _ OnServerClosed []).
Qed.

(** X16: the exit code on drain is that of the first request to close the server:
    a rejection during the drain of a signal still ends in 0, a signal during
    the drain of a rejection still ends in 1. *)
Theorem first_close_decides_exit_code (t : N) (n : nat) (s : signal) (e : Error) :
  exited (run (started t n) (Signal s :: Rejection e :: repeat Disconnect n))
  = Some (0%Z, t)
  /\ exited (run (started t n) (Rejection e :: Signal s :: repeat Disconnect n))
     = Some (1%Z, t).
Proof.
  destruct n as [|n].
  - split; reflexivity.
  - split.
    + change (exited (run (turn (turn (started t (S n)) (Signal s)) (Rejection e))
                        (repeat Disconnect (S n))) = Some (0%Z, t)).
      rewrite signal_started.
      assert (Hr : turn (gracefulShutdown s (started t (S n))) (Rejection e)
                   = onUnhandledRejection e (gracefulShutdown s (started t (S n)))).
      { unfold turn. simpl exited. cbv iota.
        apply emitClose_waits. right. simpl. discriminate. }
      rewrite Hr.
      apply (observed_exited _ t false 0%nat).
      now rewrite (drain_exits n _ OnServerClosed [OnRejectionClosed]).
    + change (exited (run (turn (turn (started t (S n)) (Rejection e)) (Signal s))
                        (repeat Disconnect (S n))) = Some (1%Z, t)).
      assert (Hr : turn (started t (S n)) (Rejection e)
                   = onUnhandledRejection e (started t (S n))).
      { unfold turn. simpl exited. cbv iota.
        apply emitClose_waits. right. simpl. discriminate. }
      rewrite Hr.
      assert (Hs : turn (onUnhandledRejection e (started t (S n))) (Signal s)
                   = gracefulShutdown s (onUnhandledRejection e (started t (S n)))).
      { unfold turn. simpl exited. cbv iota.
        apply emitClose_waits. right. simpl. discriminate. }
      rewrite Hs.
      apply (observed_exited _ t false 0%nat).
      now rewrite (drain_exits n _ OnRejectionClosed [OnServerClosed]).
Qed.

(** *** The forced exit *)

(** X17: with a connection that stays open, the process ends with code 1 at the
    first turn of the timers ten seconds or more after the signal, and not
    before. *)
Theorem signal_then_stalled_is_forced (t ms : N) (n : nat) (s : signal) :
  exited (run (started t (S n)) [Signal s; Elapse ms])
  = if (FORCE_TIMEOUT <=? ms)%N then Some (1%Z, (t + ms)%N) else None.
Proof.
  change (exited (turn (turn (started t (S n)) (Signal s)) (Elapse ms))
          = if (FORCE_TIMEOUT <=? ms)%N then Some (1%Z, (t + ms)%N) else None).
  rewrite signal_started. unfold turn. simpl exited. cbv iota.
  destruct (N.leb_spec FORCE_TIMEOUT ms) as [Hle|Hlt].
  - apply (observed_exited _ (t + ms)%N false (S n)).
    rewrite fireTimers_fires; try reflexivity.
    + simpl. unfold due. simpl.
      destruct (N.leb_spec (t + FORCE_TIMEOUT) (t + ms)); [reflexivity|lia].
    + repeat constructor.
  - rewrite fireTimers_idle; [reflexivity|].
    simpl. unfold due. simpl.
    destruct (N.leb_spec (t + FORCE_TIMEOUT) (t + ms)); [lia|reflexivity].
Qed.

Lemma fireTimers_none_due (p : Proc) :
  exited p = None -> exited (fireTimers p) = None ->
  existsb (due (clock p)) (timers p) = false.
Proof.
  intros He Hafter. destruct (existsb (due (clock p)) (timers p)) eqn:Hd;
    [|reflexivity].
  destruct (filter_some _ (fun _ => True) _ Hd) as (x & rest & Hf & _).
  { apply Forall_forall. auto. }
  unfold fireTimers in Hafter. rewrite Hf in Hafter. simpl map in Hafter.
  match type of Hafter with
  | exited (fold_left _ _ ?r) = _ =>
      rewrite (observed_exited _ _ _ _ _ (run_callbacks_live r _ _ He)) in Hafter
  end.
  discriminate.
Qed.

Lemma none_due_ahead (t : N) (ts : list (N * callback)) :
  existsb (due t) ts = false -> Forall (fun x => (t < fst x)%N) ts.
Proof.
  induction ts as [|x ts IH]; simpl; [constructor|].
  intros H. apply orb_false_iff in H as [Hx Hts]. constructor; [|auto].
  unfold due in Hx. apply N.leb_gt in Hx. exact Hx.
Qed.

Lemma turn_dead (p : Proc) (ev : event) (x : Z * N) :
  exited p = Some x -> turn p ev = p.
Proof. intros H. unfold turn. now rewrite H. Qed.

Lemma live_before (p : Proc) (ev : event) :
  exited (turn p ev) = None -> exited p = None.
Proof.
  intros H. destruct (exited p) as [x|] eqn:He; [|reflexivity].
  rewrite (turn_dead p ev x He) in H. congruence.
Qed.

Lemma timersAhead_turn (p : Proc) (ev : event) :
  timersAhead p -> timersAhead (turn p ev).
Proof.
  intros H Hlive. pose proof (live_before p ev Hlive) as He.
  specialize (H He). pose proof Hlive as Hlive'.
  rewrite (turn_live p ev He Hlive). destruct ev as [s|e|e| | |ms]; simpl;
    try assumption.
  - apply Forall_app. split; [assumption|]. repeat constructor. simpl.
    unfold FORCE_TIMEOUT. lia.
  - destruct (listening p); assumption.
  - unfold turn in Hlive'. rewrite He in Hlive'.
    apply (none_due_ahead (clock p + ms)).
    exact (fireTimers_none_due (advance ms p) He Hlive').
Qed.

Lemma timersAhead_run (evs : list event) (p : Proc) :
  timersAhead p -> timersAhead (run p evs).
Proof.
  revert p. induction evs as [|ev evs IH]; intros p H; [exact H|].
  apply IH, timersAhead_turn, H.
Qed.

Lemma forcedBy_turn (d : N) (p : Proc) (ev : event) :
  forcedBy d p -> forcedBy d (turn p ev).
Proof.
  intros H Hlive. pose proof (live_before p ev Hlive) as He.
  specialize (H He). rewrite (turn_live p ev He Hlive).
  destruct ev as [s|e|e| | |ms]; simpl; try assumption.
  - apply Exists_app. now left.
  - destruct (listening p); assumption.
Qed.

Lemma forcedBy_run (d : N) (evs : list event) (p : Proc) :
  forcedBy d p -> forcedBy d (run p evs).
Proof.
  revert p. induction evs as [|ev evs IH]; intros p H; [exact H|].
  apply IH, forcedBy_turn, H.
Qed.

Lemma forcedBy_signal (p : Proc) (s : signal) :
  forcedBy (clock p + FORCE_TIMEOUT) (turn p (Signal s)).
Proof.
  intros Hlive. pose proof (live_before p _ Hlive) as He.
  rewrite (turn_live p _ He Hlive). simpl.
  apply Exists_app. right. constructor. simpl. lia.
Qed.

(** X18: whatever else happens, a process that has received a termination signal
    does not live to see the clock reach ten seconds after it: a run that is
    still alive is less than FORCE_TIMEOUT past its first signal. *)
Theorem signal_bounds_lifetime (t : N) (n : nat) (before after : list event)
    (s : signal) :
  exited (run (started t n) (before ++ Signal s :: after)) = None ->
  (clock (run (started t n) (before ++ Signal s :: after))
   < clock (run (started t n) before) + FORCE_TIMEOUT)%N.
Proof.
  intros Hlive.
  assert (Hahead : timersAhead (run (started t n) (before ++ Signal s :: after))).
  { apply timersAhead_run. intros _. constructor. }
  assert (Hby : forcedBy (clock (run (started t n) before) + FORCE_TIMEOUT)
                  (run (started t n) (before ++ Signal s :: after))).
  { rewrite run_app. simpl. apply forcedBy_run, forcedBy_signal. }
  specialize (Hahead Hlive). specialize (Hby Hlive).
  apply Exists_exists in Hby as (x & Hx & Hle).
  rewrite Forall_forall in Hahead. specialize (Hahead x Hx). lia.
Qed.

Lemma signal_bounds_lifetime_witness :
  (clock (run (started 500 2)
            ([Connect; Elapse 100] ++ Signal SIGTERM
               :: [Disconnect; Elapse 9000; Rejection (new_Error "late")]))
   < clock (run (started 500 2) [Connect; Elapse 100]) + FORCE_TIMEOUT)%N.
Proof.
  apply (signal_bounds_lifetime 500 2 [Connect; Elapse 100]
           [Disconnect; Elapse 9000; Rejection (new_Error "late")] SIGTERM).
  reflexivity.
Defined.

(** *** Exit codes *)

Lemma observed_fields (p : Proc) (c : N) (l : bool) (n : nat)
    (x : option (Z * N)) :
  observed p = (c, l, n, x) ->
  clock p = c /\ listening p = l /\ connections p = n /\ exited p = x.
Proof. unfold observed. intros H. injection H. auto. Qed.

Lemma callbackCode_range (c : callback) :
  (callbackCode c = 0 \/ callbackCode c = 1)%Z.
Proof. destruct c; auto. Qed.

Lemma emitClose_exit (p : Proc) (c : Z) (t : N) :
  exited p = None -> exited (emitClose p) = Some (c, t) ->
  listening (emitClose p) = false /\ connections (emitClose p) = 0%nat
  /\ (c = 0 \/ c = 1)%Z.
Proof.
  intros He Hex. destruct (listening p) eqn:Hl.
  { rewrite emitClose_waits in Hex by now left. congruence. }
  destruct (decide (connections p = 0%nat)) as [Hc|Hc].
  2:{ rewrite emitClose_waits in Hex by now right. congruence. }
  destruct (closeListeners p) as [|c0 l] eqn:Hls.
  { unfold emitClose in Hex. rewrite Hl, Hc, Hls in Hex. simpl in Hex. congruence. }
  destruct (observed_fields _ _ _ _ _ (emitClose_fires p c0 l Hl Hc He Hls))
    as (_ & H1 & H2 & H3).
  rewrite H3 in Hex. injection Hex as <- _.
  repeat split; try assumption. apply callbackCode_range.
Qed.

Lemma exitAccounted_turn (p : Proc) (ev : event) :
  timersArmed p -> exitAccounted p -> exitAccounted (turn p ev).
Proof.
  intros Ht H c t Hex. destruct (exited p) as [x|] eqn:He.
  { rewrite (turn_dead p ev x He) in *. now apply (H c t). }
  specialize (Ht He). unfold turn in *. rewrite He in *.
  destruct ev as [s|e|e| | |ms].
  - destruct (emitClose_exit (gracefulShutdown s p) c t He Hex)
      as (H1 & H2 & H3). auto.
  - destruct (emitClose_exit (onUnhandledRejection e p) c t He Hex)
      as (H1 & H2 & H3). auto.
  - rewrite (observed_exited _ _ _ _ _ (onUncaughtException_observed e p He)) in Hex.
    injection Hex as <- _. split; [now right|discriminate].
  - destruct (listening p); simpl in Hex; congruence.
  - destruct (emitClose_exit (setConnections (pred (connections p)) p) c t He Hex)
      as (H1 & H2 & H3). auto.
  - destruct (existsb (due (clock (advance ms p))) (timers (advance ms p))) eqn:Hd.
    + assert (Hf : Forall isForceTimer (timers (advance ms p))).
      { simpl. eapply Forall_impl; [exact Ht|]. simpl. tauto. }
      rewrite (observed_exited _ _ _ _ _
                 (fireTimers_fires (advance ms p) He Hd Hf)) in Hex.
      injection Hex as <- _. split; [now right|discriminate].
    + rewrite fireTimers_idle in Hex by exact Hd. simpl in Hex. congruence.
Qed.

(** X19: in every run the process ends with code 0 or 1, and with 0 only when
    the server has stopped listening and no connection is left: a forced or
    faulty end is never reported as a clean one. *)
Theorem exit_code_zero_means_drained (t : N) (n : nat) (evs : list event)
    (c : Z) (at_ : N) :
  exited (run (started t n) evs) = Some (c, at_) ->
  (c = 0 \/ c = 1)%Z
  /\ (c = 0%Z ->
      listening (run (started t n) evs) = false
      /\ connections (run (started t n) evs) = 0%nat).
Proof.
  assert (Hinv : forall evs' p, timersArmed p -> exitAccounted p ->
                                exitAccounted (run p evs')).
  { intros evs'. induction evs' as [|ev evs' IH]; intros p Ht Ha; [exact Ha|].
    apply IH; [now apply timersArmed_turn | now apply exitAccounted_turn]. }
  apply (Hinv evs (started t n)).
  - apply timersArmed_started.
  - intros c' t' H. discriminate.
Qed.

Lemma exit_code_zero_means_drained_witness :
  (0 = 0 \/ 0 = 1)%Z
  /\ (0%Z = 0%Z ->
      listening (run (started 0 1) [Signal SIGINT; Elapse 30; Disconnect]) = false
      /\ connections (run (started 0 1) [Signal SIGINT; Elapse 30; Disconnect])
         = 0%nat).
Proof.
  apply (exit_code_zero_means_drained 0 1 [Signal SIGINT; Elapse 30; Disconnect]
           0%Z 30%N).
  reflexivity.
Defined.

(** *** An unhandled rejection arms no timer *)

(** X20: after an unhandled rejection with a connection open, the process closes
    the server and then waits for that connection without a time limit:
    however much time passes, it does not exit while no connection ends and
    no signal or exception arrives. *)
Theorem rejection_waits_without_limit (t : N) (n : nat) (e : Error)
    (evs : list event) :
  forallb quiet evs = true ->
  exited (run (started t (S n)) (Rejection e :: evs)) = None
  /\ listening (run (started t (S n)) (Rejection e :: evs)) = false
  /\ connections (run (started t (S n)) (Rejection e :: evs)) = S n.
Proof.
  intros Hq.
  assert (Hinv : forall p, exited p = None -> timers p = [] ->
                           listening p = false -> connections p = S n ->
                           exited (run p evs) = None
                           /\ listening (run p evs) = false
                           /\ connections (run p evs) = S n).
  { clear t e. induction evs as [|ev evs IH]; intros p He Ht Hl Hc; [auto|].
    simpl in Hq. apply andb_true_iff in Hq as [Hev Hq].
    simpl run. fold (run (turn p ev) evs).
    destruct ev as [s|e|e| | |ms]; try discriminate.
    - assert (Hstep : turn p Connect = p).
      { unfold turn. now rewrite He, Hl. }
      rewrite Hstep. now apply IH.
    - assert (Hstep : turn p (Elapse ms) = advance ms p).
      { unfold turn. rewrite He. apply fireTimers_idle. simpl. now rewrite Ht. }
      rewrite Hstep. now apply IH. }
  simpl run. fold (run (turn (started t (S n)) (Rejection e)) evs).
  assert (Hr : turn (started t (S n)) (Rejection e)
               = onUnhandledRejection e (started t (S n))).
  { unfold turn. simpl exited. cbv iota.
    apply emitClose_waits. right. simpl. discriminate. }
  rewrite Hr. now apply Hinv.
Qed.

Lemma rejection_waits_without_limit_witness :
  exited (run (started 0 1)
            (Rejection (new_Error "boom") :: [Elapse 3600000; Connect; Elapse 1]))
  = None.
Proof.
  apply (rejection_waits_without_limit 0 0 (new_Error "boom")
           [Elapse 3600000; Connect; Elapse 1]).
  reflexivity.
Defined.

(** *** A closed server stays closed *)

Lemma runCallback_server (p : Proc) (cb : callback) :
  listening (runCallback p cb) = listening p
  /\ connections (runCallback p cb) = connections p.
Proof.
  unfold runCallback. destruct (exited p) eqn:He; [auto|].
  destruct cb; unfold process_exit; simpl; rewrite He; auto.
Qed.

Lemma run_callbacks_server (l : list callback) (p : Proc) :
  listening (fold_left runCallback l p) = listening p
  /\ connections (fold_left runCallback l p) = connections p.
Proof.
  revert p. induction l as [|c l IH]; intros p; [auto|]. simpl.
  destruct (IH (runCallback p c)) as [-> ->]. apply runCallback_server.
Qed.

Lemma emitClose_server (p : Proc) :
  listening (emitClose p) = listening p
  /\ connections (emitClose p) = connections p.
Proof.
  unfold emitClose. destruct (listening p || negb (connections p =? 0)%nat); [auto|].
  match goal with
  | |- context [fold_left runCallback ?l ?r] =>
      destruct (run_callbacks_server l r) as [-> ->]
  end.
  auto.
Qed.

Lemma fireTimers_server (p : Proc) :
  listening (fireTimers p) = listening p
  /\ connections (fireTimers p) = connections p.
Proof.
  unfold fireTimers.
  match goal with
  | |- context [fold_left runCallback ?l ?r] =>
      destruct (run_callbacks_server l r) as [-> ->]
  end.
  auto.
Qed.

Lemma closed_turn (p : Proc) (ev : event) :
  listening p = false ->
  listening (turn p ev) = false
  /\ (connections (turn p ev) <= connections p)%nat.
Proof.
  intros Hl. unfold turn. destruct (exited p) eqn:He; [auto|].
  destruct ev as [s|e|e| | |ms].
  - destruct (emitClose_server (gracefulShutdown s p)) as [-> ->]. auto.
  - destruct (emitClose_server (onUnhandledRejection e p)) as [-> ->]. auto.
  - unfold onUncaughtException, process_exit. simpl. rewrite He. auto.
  - rewrite Hl. auto.
  - destruct (emitClose_server (setConnections (pred (connections p)) p))
      as [-> ->]. simpl. split; [assumption|lia].
  - destruct (fireTimers_server (advance ms p)) as [-> ->]. auto.
Qed.

(** X21: from a termination signal on, the server never listens again and the
    number of open connections never grows: clients that try to connect
    during the drain are not accepted. *)
Theorem signal_closes_server_for_good (p : Proc) (s : signal) (evs : list event) :
  exited p = None ->
  listening (run (turn p (Signal s)) evs) = false
  /\ (connections (run (turn p (Signal s)) evs) <= connections p)%nat.
Proof.
  intros He.
  assert (H0 : listening (turn p (Signal s)) = false
               /\ connections (turn p (Signal s)) = connections p).
  { unfold turn. rewrite He.
    destruct (emitClose_server (gracefulShutdown s p)) as [-> ->]. auto. }
  destruct H0 as [Hl Hc]. rewrite <- Hc. clear Hc He.
  revert Hl. generalize (turn p (Signal s)). clear p.
  induction evs as [|ev evs IH]; intros q Hl; [auto|].
  simpl run. fold (run (turn q ev) evs).
  destruct (closed_turn q ev Hl) as [Hl' Hc'].
  destruct (IH _ Hl') as [H1 H2]. split; [assumption|lia].
Qed.

Lemma signal_closes_server_for_good_witness :
  listening (run (turn (started 0 2) (Signal SIGTERM))
               [Connect; Connect; Disconnect; Connect]) = false
  /\ (connections (run (turn (started 0 2) (Signal SIGTERM))
                     [Connect; Connect; Disconnect; Connect])
      <= connections (started 0 2))%nat.
Proof.
  apply (signal_closes_server_for_good (started 0 2) SIGTERM
           [Connect; Connect; Disconnect; Connect]).
  reflexivity.
Defined.
